(** * m2ee.pgutil: PostgreSQL helper operations of m2ee-tools

    A shallow embedding of [src/m2ee/pgutil.py] and the properties of its
    operations: [dumpdb], [restoredb], [emptydb], [psql],
    [pg_stat_database], [pg_stat_activity] and [pg_table_index_size].

    The module is glue around external programs ([pg_dump], [pg_restore],
    [psql]) and the psycopg2 driver.  The embedding keeps the Python code
    as it is written and threads an explicit world (file system, database
    connections, event trace) through a state-and-exception monad; the
    behaviour of the outside (process results, driver faults, the clock)
    is supplied by a [Host] record over which all theorems quantify. *)

From Stdlib Require Import ZArith List Strings.String Strings.Ascii Strings.Byte Lia.
From stdpp Require Import gmap strings list fin_maps.

Local Open Scope Z_scope.

(** ** Python [bytes] *)

Module Bytes.

(** A [bytes] object is a [list byte]; literals are written [b "..."]. *)
Definition b (s : string) : list byte := list_byte_of_string s.

Definition code (c : byte) : N := Byte.to_N c.

(** [Py_ISSPACE]: tab, line feed, vertical tab, form feed, carriage
    return and space. *)
Definition Py_ISSPACE (c : byte) : bool :=
  ((9 <=? code c)%N && (code c <=? 13)%N) || (code c =? 32)%N.

Definition Py_ISDIGIT (c : byte) : bool :=
  (48 <=? code c)%N && (code c <=? 57)%N.

Definition digit_value (c : byte) : Z := Z.of_N (code c) - 48.

(** [bytes.strip()] without argument removes leading and trailing
    ASCII whitespace. *)
Fixpoint lstrip (s : list byte) : list byte :=
  match s with
  | c :: r => if Py_ISSPACE c then lstrip r else s
  | [] => []
  end.

Definition rstrip (s : list byte) : list byte := rev (lstrip (rev s)).

Definition strip (s : list byte) : list byte := rstrip (lstrip s).

(** [bytes.split(sep)] for a one-byte separator: every occurrence of
    the separator ends a field, and the empty input has one empty
    field. *)
Fixpoint split (sep : byte) (s : list byte) : list (list byte) :=
  match s with
  | [] => [[]]
  | c :: r =>
      if Byte.eqb c sep then [] :: split sep r
      else match split sep r with
           | f :: fs => (c :: f) :: fs
           | [] => [[c]]
           end
  end.

(** [bytes.splitlines()]: lines end at line feed, carriage return, or
    the pair carriage return + line feed; no empty last line. *)
Fixpoint splitlines (s : list byte) : list (list byte) :=
  match s with
  | [] => []
  | c :: r =>
      if Byte.eqb c x0a then [] :: splitlines r
      else if Byte.eqb c x0d then
        match r with
        | c' :: r' => if Byte.eqb c' x0a then [] :: splitlines r'
                      else [] :: splitlines r
        | [] => [[]]
        end
      else match splitlines r with
           | l :: ls => (c :: l) :: ls
           | [] => [[c]]
           end
  end.

(** The digit scan of [PyLong_FromString] in base 10: digits with
    single underscores between them.  It stops at the first byte that
    is neither; an underscore after an underscore, or an underscore as
    the last scanned byte, is an error. *)
Fixpoint scan_digits (acc : Z) (prev_underscore : bool) (s : list byte)
  : option (Z * list byte) :=
  match s with
  | c :: r =>
      if Py_ISDIGIT c then scan_digits (10 * acc + digit_value c) false r
      else if Byte.eqb c "_" then
        if prev_underscore then None else scan_digits acc true r
      else if prev_underscore then None else Some (acc, s)
  | [] => if prev_underscore then None else Some (acc, [])
  end.

(** [int(x)] for a [bytes] value [x]: optional whitespace, optional
    sign, decimal digits, optional whitespace, nothing else.  [None]
    stands for [ValueError].  (Python integers are unbounded; the
    interpreter's configurable limit on the number of digits of a
    literal is not part of the model.) *)
Definition int (s : list byte) : option Z :=
  let s1 := lstrip s in
  let '(negative, s2) :=
    match s1 with
    | c :: r => if Byte.eqb c "+" then (false, r)
                else if Byte.eqb c "-" then (true, r)
                else (false, s1)
    | [] => (false, s1)
    end in
  match s2 with
  | c :: _ =>
      if Py_ISDIGIT c then
        match scan_digits 0 false s2 with
        | Some (v, rest) =>
            match lstrip rest with
            | [] => Some (if negative then - v else v)
            | _ :: _ => None
            end
        | None => None
        end
      else None
  | [] => None
  end.

(** [[int(x) for x in fields]]: the first field that is not an integer
    literal aborts the comprehension. *)
Fixpoint ints (fields : list (list byte)) : option (list Z) :=
  match fields with
  | [] => Some []
  | f :: fs =>
      match int f with
      | Some z => match ints fs with
                  | Some zs => Some (z :: zs)
                  | None => None
                  end
      | None => None
      end
  end.

(** Well-formed UTF-8 (the table of the Unicode standard: no overlong
    forms, no surrogates, nothing above U+10FFFF), as the strict
    decoder of [bytes.decode()] demands. *)
Definition continuation (c : byte) : bool :=
  (128 <=? code c)%N && (code c <=? 191)%N.

Definition between (lo hi : N) (c : byte) : bool :=
  (lo <=? code c)%N && (code c <=? hi)%N.

Fixpoint utf8_valid (s : list byte) : bool :=
  match s with
  | [] => true
  | c0 :: r0 =>
      if (code c0 <=? 127)%N then utf8_valid r0
      else
        match r0 with
        | [] => false
        | c1 :: r1 =>
            if between 194 223 c0 then continuation c1 && utf8_valid r1
            else
              match r1 with
              | [] => false
              | c2 :: r2 =>
                  if between 224 239 c0 then
                    (if (code c0 =? 224)%N then between 160 191 c1
                     else if (code c0 =? 237)%N then between 128 159 c1
                     else continuation c1)
                    && continuation c2 && utf8_valid r2
                  else
                    match r2 with
                    | [] => false
                    | c3 :: r3 =>
                        if between 240 244 c0 then
                          (if (code c0 =? 240)%N then between 144 191 c1
                           else if (code c0 =? 244)%N then between 128 143 c1
                           else continuation c1)
                          && continuation c2 && continuation c3
                          && utf8_valid r3
                        else false
                    end
              end
        end
  end.

(** [bytes.decode()].  A Python [str] is represented by its UTF-8
    encoding held in a [string]; strict decoding is injective, so the
    representation loses nothing.  [None] is [UnicodeDecodeError]. *)
Definition decode (s : list byte) : option string :=
  if utf8_valid s then Some (string_of_list_byte s) else None.

(** [repr] of a [bytes] value, which is what [str()] and the [%s]
    conversion produce for it. *)
Definition hex_digit (n : N) : ascii :=
  ascii_of_N (if (n <? 10)%N then 48 + n else 87 + n).

Definition chr (c : byte) : string := String (ascii_of_byte c) EmptyString.

Definition repr_byte (quote c : byte) : string :=
  if Byte.eqb c quote || Byte.eqb c "\" then "\" +:+ chr c
  else if Byte.eqb c x09 then "\t"
  else if Byte.eqb c x0a then "\n"
  else if Byte.eqb c x0d then "\r"
  else if (code c <? 32)%N || (127 <=? code c)%N then
    String "\" (String "x" (String (hex_digit (code c / 16))
                             (String (hex_digit (code c mod 16)) EmptyString)))
  else chr c.

Definition contains (c : byte) (s : list byte) : bool :=
  existsb (Byte.eqb c) s.

Definition repr (s : list byte) : string :=
  let quote := if contains "'" s && negb (contains x22 s) then x22 else x27 in
  "b" +:+ chr quote +:+ String.concat EmptyString (map (repr_byte quote) s) +:+ chr quote.

End Bytes.

Import Bytes.

(** ** Exceptions and results *)

(** An operating-system level failure ([OSError] and its subclasses such
    as [FileNotFoundError] or [PermissionError]). *)
Record os_error := OSErr { errno : Z; strerror : string }.

(** A [psycopg2.Error]; [pgerror] is what [str()] gives for it. *)
Record pg_error := PgErr { pgerror : string }.

(** The exceptions the module can let escape.  [M2EEException] is
    declared in [m2ee.exceptions]; it is kept here with the arguments the
    module passes to it: the message, the optional second argument (the
    [OSError] of a failed launch), and the [__cause__] set by
    [raise ... from]. *)
Inductive exn :=
| M2EEException (message : string) (arg : option os_error) (cause : option pg_error)
| OSError (e : os_error)
| CalledProcessError (returncode : Z) (cmd : list string) (output : list byte)
| ValueError
| TypeError (message : string)
| KeyError (key : string)
| UnicodeDecodeError
| Psycopg2Error (e : pg_error).

Inductive result (A : Type) :=
| Ok (a : A)
| Err (e : exn).

Arguments Ok {A} a.
Arguments Err {A} e.

(** ** The outside world *)

(** What a launched program did: it could not be started, or it ran to
    its end with an exit status and the bytes it wrote to its two
    streams. *)
Inductive proc_outcome :=
| LaunchFailed (e : os_error)
| Exited (returncode : Z) (stdout stderr : list byte).

(** [time.struct_time], the fields [strftime] reads. *)
Record struct_time := {
  tm_year : Z; tm_mon : Z; tm_mday : Z;
  tm_hour : Z; tm_min : Z; tm_sec : Z }.

(** Statements sent through the cursor by [emptydb].  The two catalogue
    queries are fixed texts; a drop names one relation by schema and
    name, rendered by [psycopg2.sql.Identifier]. *)
Inductive stmt :=
| SelectTables
| SelectSequences
| DropTable (nsp rel : string)
| DropSequence (nsp rel : string).

(** The server's relations, as far as [emptydb] is concerned. *)
Record catalog := {
  tables : list (string * string);
  sequences : list (string * string) }.

(** Everything the module cannot decide by itself. *)
Record Host := {
  os_environ : gmap string string;
  localtime : struct_time;
  (** [open(path, 'w+')] fails on these paths *)
  open_fault : string -> option os_error;
  (** the run of a command line under an environment *)
  spawn : list string -> gmap string string -> proc_outcome;
  (** whether [import psycopg2] succeeded *)
  psycopg2_present : bool;
  (** [psycopg2.connect(database, user, password)] *)
  connect_fault : string -> string -> string -> option pg_error;
  (** one statement inside the transaction of a connection: an error,
      or the new transaction-local catalogue and the rows fetched *)
  execute : stmt -> catalog -> pg_error + catalog * list (string * string);
  (** [connection.commit()] *)
  commit_fault : catalog -> option pg_error }.

(** The configuration object; [m2ee.config] is not part of this module,
    so the values its getters return are fields. *)
Record Config := {
  get_pg_environment : gmap string string;
  get_database_dump_path : string;
  get_pg_dump_binary : string;
  get_pg_restore_binary : string;
  get_psql_binary : string }.

(** A psycopg2 connection: the catalogue as the connection's open
    transaction sees it, and whether [close()] was called. *)
Record connection := {
  view : catalog;
  closed : bool }.

Inductive event :=
| EvOpen (path : string) (fault : option os_error)
| EvSpawn (cmd : list string) (env : gmap string string)
| EvConnect (fault : option pg_error)
| EvExecute (s : stmt) (fault : option pg_error)
| EvCommit (fault : option pg_error)
| EvClose (handle : nat).

(** The mutable state: files by path, the committed catalogue of the
    database, the connections opened so far (a handle is an index), and
    the events in the order they happened. *)
Record World := {
  files : gmap string (list byte);
  durable : catalog;
  conns : list connection;
  trace : list event }.

(** ** State and exception monad *)

Definition M (A : Type) : Type := World -> result A * World.

Definition ret {A} (a : A) : M A := fun w => (Ok a, w).

Definition raise {A} (e : exn) : M A := fun w => (Err e, w).

Definition bind {A B} (m : M A) (k : A -> M B) : M B :=
  fun w => match m w with
           | (Ok a, w') => k a w'
           | (Err e, w') => (Err e, w')
           end.

Notation "'let*' x ':=' m 'in' k" := (bind m (fun x => k))
  (at level 10, x name, m at level 100, k at level 200).
Notation "'let*' ' pat ':=' m 'in' k" := (bind m (fun x => match x with pat => k end))
  (at level 10, pat pattern, m at level 100, k at level 200).
Notation "'run' m 'in' k" := (bind m (fun _ => k))
  (at level 10, m at level 100, k at level 200).

(** [try: body except ...: handler]; a handler that does not match
    re-raises. *)
Definition try_except {A} (body : M A) (handler : exn -> M A) : M A :=
  fun w => match body w with
           | (Ok a, w') => (Ok a, w')
           | (Err e, w') => handler e w'
           end.

(** [try: body finally: cleanup], for a cleanup that cannot fail. *)
Definition try_finally {A} (body : M A) (cleanup : World -> World) : M A :=
  fun w => match body w with
           | (r, w') => (r, cleanup w')
           end.

Definition lift {A} (r : option A) (e : exn) : M A :=
  match r with
  | Some a => ret a
  | None => raise e
  end.

(** [for x in xs: body x] *)
Fixpoint for_each {A} (xs : list A) (body : A -> M unit) : M unit :=
  match xs with
  | [] => ret tt
  | x :: r => run body x in for_each r body
  end.

(** [d[key]] *)
Definition getitem (d : gmap string string) (key : string) : M string :=
  lift (d !! key) (KeyError key).

(** ** Library functions the module calls *)

(** [os.path.join(a, p)] of [posixpath]: an absolute second component
    replaces the first. *)
Definition startswith_sep (s : string) : bool :=
  match s with
  | String c _ => Ascii.eqb c "/"
  | EmptyString => false
  end.

Fixpoint endswith_sep (s : string) : bool :=
  match s with
  | EmptyString => false
  | String c EmptyString => Ascii.eqb c "/"
  | String _ r => endswith_sep r
  end.

Definition os_path_join (a p : string) : string :=
  if startswith_sep p then p
  else if String.eqb a EmptyString || endswith_sep a then a +:+ p
  else a +:+ "/" +:+ p.

(** Decimal digits of a number, as the C library prints them. *)
Definition digit_char (d : Z) : ascii := ascii_of_N (48 + Z.to_N d).

Fixpoint decimal_fuel (fuel : nat) (n : Z) (acc : string) : string :=
  match fuel with
  | O => acc
  | S f =>
      let acc' := String (digit_char (n mod 10)) acc in
      if n <? 10 then acc' else decimal_fuel f (n / 10) acc'
  end.

Definition decimal (n : Z) : string :=
  if n <? 0 then "-" +:+ decimal_fuel (S (Z.to_nat (- n))) (- n) EmptyString
  else decimal_fuel (S (Z.to_nat n)) n EmptyString.

(** A two-digit, zero-padded field ([%m], [%d], [%H], [%M], [%S]). *)
Definition two_digits (n : Z) : string :=
  String (digit_char (n / 10)) (String (digit_char (n mod 10)) EmptyString).

(** [time.strftime("%Y%m%d_%H%M%S")] at the local time [t]; [%Y] is the
    year in full, without padding. *)
Definition strftime (t : struct_time) : string :=
  decimal (tm_year t) +:+ two_digits (tm_mon t) +:+ two_digits (tm_mday t)
  +:+ "_" +:+ two_digits (tm_hour t) +:+ two_digits (tm_min t)
  +:+ two_digits (tm_sec t).

(** The right operand of the string formatting operator [%]: a tuple
    supplies one argument per element, anything else is one argument. *)
Inductive operand :=
| Single (s : string)
| Tuple (items : list string).

(** [(before + "%s" + after) % x] for a format with exactly one
    conversion. *)
Definition percent_s (before after : string) (x : operand) : M string :=
  match x with
  | Single s => ret (before +:+ s +:+ after)
  | Tuple [s] => ret (before +:+ s +:+ after)
  | Tuple [] => raise (TypeError "not enough arguments for format string")
  | Tuple (_ :: _ :: _) =>
      raise (TypeError "not all arguments converted during string formatting")
  end.

(** ** World primitives *)

Definition set_files (f : gmap string (list byte)) (w : World) : World :=
  {| files := f; durable := durable w; conns := conns w; trace := trace w |}.

Definition set_durable (d : catalog) (w : World) : World :=
  {| files := files w; durable := d; conns := conns w; trace := trace w |}.

Definition set_conns (c : list connection) (w : World) : World :=
  {| files := files w; durable := durable w; conns := c; trace := trace w |}.

Definition add_event (ev : event) (w : World) : World :=
  {| files := files w; durable := durable w; conns := conns w;
     trace := trace w ++ [ev] |}.

Definition nonempty {A} (l : list A) : bool :=
  match l with
  | [] => false
  | _ :: _ => true
  end.

Section Primitives.

Variable host : Host.

(** [open(path, 'w+')]: creates the file or truncates it to length
    zero; the handle is the path. *)
Definition open_w (path : string) : M string :=
  fun w =>
    match open_fault host path with
    | Some e => (Err (OSError e), add_event (EvOpen path (Some e)) w)
    | None =>
        (Ok path,
         add_event (EvOpen path None) (set_files (<[path := []]> (files w)) w))
    end.

(** [subprocess.Popen(cmd, env=env, stdout=PIPE, stderr=PIPE)]
    followed by [communicate()]: both streams are captured. *)
Definition Popen_communicate (cmd : list string) (env : gmap string string)
  : M (list byte * list byte) :=
  fun w =>
    let w' := add_event (EvSpawn cmd env) w in
    match spawn host cmd env with
    | LaunchFailed e => (Err (OSError e), w')
    | Exited _ out err => (Ok (out, err), w')
    end.

(** The same with [stdout] redirected into the open file [f]: the
    child writes its output there, [communicate()] returns [None] for
    it and the captured error stream. *)
Definition Popen_communicate_to (cmd : list string) (env : gmap string string)
    (f : string) : M (unit * list byte) :=
  fun w =>
    let w' := add_event (EvSpawn cmd env) w in
    match spawn host cmd env with
    | LaunchFailed e => (Err (OSError e), w')
    | Exited _ out err => (Ok (tt, err), set_files (<[f := out]> (files w')) w')
    end.

(** [subprocess.call(cmd, env=env)]: streams inherited, the exit
    status is the value. *)
Definition subprocess_call (cmd : list string) (env : gmap string string) : M Z :=
  fun w =>
    let w' := add_event (EvSpawn cmd env) w in
    match spawn host cmd env with
    | LaunchFailed e => (Err (OSError e), w')
    | Exited rc _ _ => (Ok rc, w')
    end.

(** [subprocess.check_output(cmd, env=env)]: the output stream is
    captured, the error stream is inherited and never looked at; a
    non-zero exit status raises [CalledProcessError]. *)
Definition check_output (cmd : list string) (env : gmap string string)
  : M (list byte) :=
  fun w =>
    let w' := add_event (EvSpawn cmd env) w in
    match spawn host cmd env with
    | LaunchFailed e => (Err (OSError e), w')
    | Exited rc out _ =>
        if rc =? 0 then (Ok out, w')
        else (Err (CalledProcessError rc cmd out), w')
    end.

(** [psycopg2.connect(...)]: a new connection whose transaction starts
    from the committed catalogue; the handle is its index. *)
Definition psycopg2_connect (database user password : string) : M nat :=
  fun w =>
    match connect_fault host database user password with
    | Some pe => (Err (Psycopg2Error pe), add_event (EvConnect (Some pe)) w)
    | None =>
        (Ok (length (conns w)),
         add_event (EvConnect None)
           (set_conns (conns w ++ [{| view := durable w; closed := false |}]) w))
    end.

(** [cur.execute(stmt)] and, for a query, [cur.fetchall()].  The
    statement runs inside the connection's transaction. *)
Definition cur_execute (conn : nat) (s : stmt) : M (list (string * string)) :=
  fun w =>
    match conns w !! conn with
    | Some {| view := v; closed := false |} =>
        match execute host s v with
        | inl pe => (Err (Psycopg2Error pe), add_event (EvExecute s (Some pe)) w)
        | inr (v', rows) =>
            (Ok rows,
             add_event (EvExecute s None)
               (set_conns (<[conn := {| view := v'; closed := false |}]> (conns w)) w))
        end
    | _ => (Err (Psycopg2Error (PgErr "connection already closed")), w)
    end.

(** [conn.commit()]: the transaction's catalogue becomes the committed
    one. *)
Definition conn_commit (conn : nat) : M unit :=
  fun w =>
    match conns w !! conn with
    | Some {| view := v; closed := false |} =>
        match commit_fault host v with
        | Some pe => (Err (Psycopg2Error pe), add_event (EvCommit (Some pe)) w)
        | None => (Ok tt, add_event (EvCommit None) (set_durable v w))
        end
    | _ => (Err (Psycopg2Error (PgErr "connection already closed")), w)
    end.

(** [conn.close()]: what the transaction did and was not committed is
    discarded. *)
Definition conn_close (conn : nat) (w : World) : World :=
  add_event (EvClose conn)
    (set_conns (<[conn := {| view := durable w; closed := true |}]> (conns w)) w).

End Primitives.

(** ** The operations of [pgutil] *)

Definition dq : string := chr x22.

(** The query text of [pg_stat_database], with the database name put in
    by [%]. *)
Definition stat_database_sql (datname : string) : string :=
  "SELECT xact_commit, xact_rollback, tup_inserted, tup_updated, tup_deleted "
  +:+ "FROM pg_stat_database where datname = '" +:+ datname +:+ "'".

(** The query text of [pg_stat_activity]. *)
Definition stat_activity_sql (datname usename : string) : string :=
  "SELECT count(*), state FROM pg_stat_activity "
  +:+ "WHERE datname = '" +:+ datname +:+ "' AND usename = '"
  +:+ usename +:+ "' GROUP BY 2".

(** The query text of [pg_table_index_size]. *)
Definition table_index_size_sql : string :=
  "SELECT sum(pg_table_size(table_name::regclass)), "
  +:+ "sum(pg_indexes_size(table_name::regclass)) "
  +:+ "FROM (SELECT ('" +:+ dq +:+ "' || table_schema || '" +:+ dq
  +:+ "." +:+ dq +:+ "' || table_name || '" +:+ dq +:+ "') "
  +:+ "        AS table_name FROM information_schema.tables) AS foo".

Section Operations.

Variable host : Host.

(** [env = os.environ.copy(); env.update(config.get_pg_environment())]:
    the configuration's variables win. *)
Definition make_env (config : Config) : gmap string string :=
  get_pg_environment config ∪ os_environ host.

Definition _check_psycopg2 : M unit :=
  if psycopg2_present host then ret tt
  else raise (M2EEException
                ("Failed to import psycopg2. This module is needed by m2ee for "
                 +:+ "PostgreSQL related functionality. "
                 +:+ "Please provide it on the python library path.")
                None None).

Definition open_pg_connection (config : Config) : M nat :=
  run _check_psycopg2 in
  let pg_env := get_pg_environment config in
  try_except
    (let* database := getitem pg_env "PGDATABASE" in
     let* user := getitem pg_env "PGUSER" in
     let* password := getitem pg_env "PGPASSWORD" in
     psycopg2_connect host database user password)
    (fun e =>
       match e with
       | Psycopg2Error pe =>
           raise (M2EEException
                    ("Opening database connection failed: " +:+ pgerror pe)
                    None (Some pe))
       | _ => raise e
       end).

Definition dumpdb (config : Config) (name : option string) : M unit :=
  let env := make_env config in
  let* name :=
    match name with
    | None =>
        let* database := getitem env "PGDATABASE" in
        ret (database +:+ "_" +:+ strftime (localtime host) +:+ ".backup")
    | Some name => ret name
    end in
  let db_dump_file_name := os_path_join (get_database_dump_path config) name in
  let cmd := [get_pg_dump_binary config; "-O"; "-x"; "-F"; "c"]%string in
  try_except
    (let* f := open_w host db_dump_file_name in
     let* '(_, stderr) := Popen_communicate_to host cmd env f in
     if nonempty stderr then
       let* msg := percent_s "An error occured while creating database dump: "
                     EmptyString (Single (repr (strip stderr))) in
       raise (M2EEException msg None None)
     else ret tt)
    (fun e =>
       match e with
       | OSError oe =>
           let* msg := percent_s "Database dump failed, cmd: " EmptyString
                         (Tuple cmd) in
           raise (M2EEException msg (Some oe) None)
       | _ => raise e
       end).

Definition restoredb (config : Config) (dump_name : string) : M unit :=
  let env := make_env config in
  let db_dump_file_name :=
    os_path_join (get_database_dump_path config) dump_name in
  let* database := getitem env "PGDATABASE" in
  let cmd := [get_pg_restore_binary config; "-d"; database;
              "-O"; "-n"; "public"; "-x"; db_dump_file_name]%string in
  try_except
    (let* '(stdout, stderr) := Popen_communicate host cmd env in
     if nonempty stderr then
       let* msg := percent_s "An error occured while doing database restore: "
                     " " (Single (repr (strip stderr))) in
       raise (M2EEException msg None None)
     else ret tt)
    (fun e =>
       match e with
       | OSError oe =>
           let* msg := percent_s "Database restore failed, cmd: " EmptyString
                         (Tuple cmd) in
           raise (M2EEException msg (Some oe) None)
       | _ => raise e
       end).

Definition drop_all (conn : nat) (drop : string -> string -> stmt)
    (nsp_rel_tuples : list (string * string)) : M unit :=
  for_each nsp_rel_tuples
    (fun nsp_rel_tuple =>
       let* _ := cur_execute host conn (drop nsp_rel_tuple.1 nsp_rel_tuple.2) in
       ret tt).

Definition emptydb (config : Config) : M unit :=
  let* conn := open_pg_connection config in
  try_finally
    (try_except
       (let* nsp_rel_tuples := cur_execute host conn SelectTables in
        run drop_all conn DropTable nsp_rel_tuples in
        let* nsp_rel_tuples := cur_execute host conn SelectSequences in
        run drop_all conn DropSequence nsp_rel_tuples in
        conn_commit host conn)
       (fun e =>
          match e with
          | Psycopg2Error pe =>
              raise (M2EEException
                       ("Emptying database failed: " +:+ pgerror pe)
                       None (Some pe))
          | _ => raise e
          end))
    (conn_close conn).

Definition psql (config : Config) : M unit :=
  let env := make_env config in
  let cmd := [get_psql_binary config] in
  try_except
    (let* _ := subprocess_call host cmd env in ret tt)
    (fun e =>
       match e with
       | OSError oe =>
           let* msg := percent_s "An error occured while calling psql, cmd: "
                         EmptyString (Tuple cmd) in
           raise (M2EEException msg (Some oe) None)
       | _ => raise e
       end).

Definition pg_stat_database (config : Config) : M (list Z) :=
  let env := make_env config in
  let* datname := getitem env "PGDATABASE" in
  let cmd := [get_psql_binary config; "-At"; "-c"; stat_database_sql datname] in
  let* '(stdout, stderr) :=
    try_except
      (let* '(stdout, stderr) := Popen_communicate host cmd env in
       if nonempty stderr then
         let* msg := percent_s "Retrieving pg_stat_database info failed: "
                       EmptyString (Single (repr (strip stderr))) in
         raise (M2EEException msg None None)
       else ret (stdout, stderr))
      (fun e =>
         match e with
         | OSError oe =>
             let* msg := percent_s "Retrieving pg_stat_database info failed, cmd: "
                           EmptyString (Tuple cmd) in
             raise (M2EEException msg (Some oe) None)
         | _ => raise e
         end) in
  lift (ints (split "|" stdout)) ValueError.

(** The dictionary comprehension of [pg_stat_activity]: each line is
    split at the bars and unpacked into exactly two parts (anything
    else is a [ValueError]); the key is evaluated before the value; a
    later line overwrites an earlier one with the same key. *)
Fixpoint state_counts (lines : list (list byte)) (acc : gmap string Z)
  : result (gmap string Z) :=
  match lines with
  | [] => Ok acc
  | line :: rest =>
      match split "|" line with
      | [count; state] =>
          match decode state with
          | None => Err UnicodeDecodeError
          | Some key =>
              match int count with
              | None => Err ValueError
              | Some n => state_counts rest (<[key := n]> acc)
              end
          end
      | _ => Err ValueError
      end
  end.

Definition pg_stat_activity (config : Config) : M (gmap string Z) :=
  let env := make_env config in
  let* datname := getitem env "PGDATABASE" in
  let* usename := getitem env "PGUSER" in
  let cmd := [get_psql_binary config; "-At"; "-c";
              stat_activity_sql datname usename] in
  let* '(stdout, stderr) :=
    try_except
      (let* '(stdout, stderr) := Popen_communicate host cmd env in
       if nonempty stderr then
         let* msg := percent_s "Retrieving pg_stat_activity info failed: "
                       EmptyString (Single (repr (strip stderr))) in
         raise (M2EEException msg None None)
       else ret (stdout, stderr))
      (fun e =>
         match e with
         | OSError oe =>
             let* msg := percent_s "Retrieving pg_stat_activity info failed, cmd: "
                           EmptyString (Tuple cmd) in
             raise (M2EEException msg (Some oe) None)
         | _ => raise e
         end) in
  fun w => (state_counts (splitlines stdout) ∅, w).

Definition pg_table_index_size (config : Config) : M (list Z) :=
  let env := make_env config in
  let cmd := [get_psql_binary config; "-At"; "-c"; table_index_size_sql] in
  let* output := check_output host cmd env in
  lift (ints (split "|" output)) ValueError.

End Operations.

(** ** Sample hosts and configurations *)

(** A small server: the catalogue queries list the relations, a drop
    removes the relation it names and fails when there is none. *)
Definition pair_eqb (x y : string * string) : bool :=
  String.eqb x.1 y.1 && String.eqb x.2 y.2.

Definition pg_execute (s : stmt) (c : catalog)
  : pg_error + catalog * list (string * string) :=
  match s with
  | SelectTables => inr (c, tables c)
  | SelectSequences => inr (c, sequences c)
  | DropTable n r =>
      if existsb (pair_eqb (n, r)) (tables c) then
        inr ({| tables := filter (fun x => negb (pair_eqb (n, r) x)) (tables c);
                sequences := sequences c |}, [])
      else inl (PgErr ("table " +:+ r +:+ " does not exist"))
  | DropSequence n r =>
      if existsb (pair_eqb (n, r)) (sequences c) then
        inr ({| tables := tables c;
                sequences := filter (fun x => negb (pair_eqb (n, r) x)) (sequences c) |}, [])
      else inl (PgErr ("sequence " +:+ r +:+ " does not exist"))
  end.

Definition sample_time : struct_time :=
  {| tm_year := 2024; tm_mon := 3; tm_mday := 9;
     tm_hour := 7; tm_min := 5; tm_sec := 0 |}.

(** A host on which nothing fails and every program ends as [outcome]. *)
Definition host_with (outcome : proc_outcome) : Host :=
  {| os_environ := {[ "HOME"%string := "/root"%string ]};
     localtime := sample_time;
     open_fault := fun _ => None;
     spawn := fun _ _ => outcome;
     psycopg2_present := true;
     connect_fault := fun _ _ _ => None;
     execute := pg_execute;
     commit_fault := fun _ => None |}.

Definition sample_config : Config :=
  {| get_pg_environment :=
       list_to_map [("PGDATABASE", "appdb"); ("PGUSER", "app");
                    ("PGPASSWORD", "secret")]%string;
     get_database_dump_path := "/var/dumps";
     get_pg_dump_binary := "/usr/bin/pg_dump";
     get_pg_restore_binary := "/usr/bin/pg_restore";
     get_psql_binary := "/usr/bin/psql" |}.

Definition sample_catalog : catalog :=
  {| tables := [("public", "orders"); ("public", "users")]%string;
     sequences := [("public", "orders_id_seq")]%string |}.

Definition sample_world : World :=
  {| files := {[ "/var/dumps/old.backup"%string := b "previous" ]};
     durable := sample_catalog;
     conns := [];
     trace := [] |}.

(** [psql -At] prints one row as its columns separated by bars and ended
    by a line feed; a null column prints as the empty string. *)
Fixpoint join_bar (fields : list (list byte)) : list byte :=
  match fields with
  | [] => []
  | [f] => f
  | f :: fs => f ++ "|"%byte :: join_bar fs
  end.

Definition psql_At_row (columns : list (option Z)) : list byte :=
  join_bar (map (fun c => match c with
                          | Some z => b (decimal z)
                          | None => []
                          end) columns) ++ [x0a].

(** ** Vocabulary of the specification *)

(** The failure kind of an operation: the module has one exception class
    of its own, [M2EEException]. *)
Definition is_M2EEException {A} (r : result A) : Prop :=
  exists message arg cause, r = Err (M2EEException message arg cause).

(** A message carries a text verbatim when the text occurs in it
    unchanged. *)
Definition carries_verbatim (message : string) (text : list byte) : Prop :=
  exists before after, message = before +:+ string_of_list_byte text +:+ after.

(** Failing with the operation's error kind and the error stream's text. *)
Definition fails_carrying {A} (r : result A) (text : list byte) : Prop :=
  exists message arg cause,
    r = Err (M2EEException message arg cause) /\ carries_verbatim message text.

(** The pattern [YYYYMMDD_HHMMSS]: eight digits, an underscore, six
    digits. *)
Definition is_digit (c : ascii) : bool :=
  (48 <=? N_of_ascii c)%N && (N_of_ascii c <=? 57)%N.

Fixpoint drop_digits (n : nat) (s : string) : option string :=
  match n with
  | O => Some s
  | S n' =>
      match s with
      | String c r => if is_digit c then drop_digits n' r else None
      | EmptyString => None
      end
  end.

Definition timestamp_pattern (s : string) : bool :=
  match drop_digits 8 s with
  | Some (String c r) =>
      Ascii.eqb c "_" &&
      match drop_digits 6 r with
      | Some EmptyString => true
      | _ => false
      end
  | _ => false
  end.

(** A broken-down local time in the ranges of [time.struct_time], with
    a year of four digits. *)
Definition calendar_time (t : struct_time) : Prop :=
  1000 <= tm_year t <= 9999 /\ 1 <= tm_mon t <= 12 /\ 1 <= tm_mday t <= 31
  /\ 0 <= tm_hour t <= 23 /\ 0 <= tm_min t <= 59 /\ 0 <= tm_sec t <= 61.

(** The paths opened for writing, in the order of the trace. *)
Definition opened_paths (tr : list event) : list string :=
  omap (fun ev => match ev with
                  | EvOpen path _ => Some path
                  | _ => None
                  end) tr.

(** The file name [dumpdb] uses: the one given, or the default made of
    the database name and the local time. *)
Definition dump_name (host : Host) (config : Config) (given : option string)
  : option string :=
  match given with
  | Some name => Some name
  | None =>
      match make_env host config !! "PGDATABASE"%string with
      | Some database =>
          Some (database +:+ "_" +:+ strftime (localtime host) +:+ ".backup")
      | None => None
      end
  end.

(** A host on which no file can be opened for writing. *)
Definition closed_host (e : os_error) (outcome : proc_outcome) : Host :=
  {| os_environ := ∅;
     localtime := sample_time;
     open_fault := fun _ => Some e;
     spawn := fun _ _ => outcome;
     psycopg2_present := true;
     connect_fault := fun _ _ _ => None;
     execute := pg_execute;
     commit_fault := fun _ => None |}.

(** One line [<count>|<state>] of the connection-state query: the two
    texts and what they stand for. *)
Record activity_row := {
  count_text : list byte;
  state_text : list byte;
  state_name : string;
  count_value : Z }.

Definition row_line (r : activity_row) : list byte :=
  count_text r ++ "|"%byte :: state_text r.

(** The count is an integer literal, the state a text without bar. *)
Definition row_ok (r : activity_row) : Prop :=
  int (count_text r) = Some (count_value r)
  /\ decode (state_text r) = Some (state_name r)
  /\ ~ In "|"%byte (state_text r).

(** What one line adds to the mapping. *)
Definition record_row (m : gmap string Z) (r : activity_row) : gmap string Z :=
  <[state_name r := count_value r]> m.

Definition idle_row : activity_row :=
  {| count_text := b "19"; state_text := b "idle";
     state_name := "idle"; count_value := 19 |}.

Definition active_row : activity_row :=
  {| count_text := b "2"; state_text := b "active";
     state_name := "active"; count_value := 2 |}.

(** ** The transaction of [emptydb], seen from the server *)

(** The statements of one drop loop run on the transaction's catalogue
    [v]: the events they leave, the catalogue afterwards, and the error
    that stopped the loop, if any. *)
Fixpoint drops (host : Host) (drop : string -> string -> stmt)
    (rows : list (string * string)) (v : catalog)
  : list event * catalog * option pg_error :=
  match rows with
  | [] => ([], v, None)
  | row :: rest =>
      match execute host (drop row.1 row.2) v with
      | inl pe => ([EvExecute (drop row.1 row.2) (Some pe)], v, Some pe)
      | inr (v', _) =>
          let '(evs, v'', e) := drops host drop rest v' in
          (EvExecute (drop row.1 row.2) None :: evs, v'', e)
      end
  end.

(** A catalogue query followed by the drop of every row it returns. *)
Definition phase (host : Host) (query : stmt) (drop : string -> string -> stmt)
    (v : catalog) : list event * catalog * option pg_error :=
  match execute host query v with
  | inl pe => ([EvExecute query (Some pe)], v, Some pe)
  | inr (v', rows) =>
      let '(evs, v'', e) := drops host drop rows v' in
      (EvExecute query None :: evs, v'', e)
  end.

(** Tables, then sequences, then the commit. *)
Definition wipe_script (host : Host) (v : catalog)
  : list event * catalog * option pg_error :=
  let '(evs1, v1, e1) := phase host SelectTables DropTable v in
  match e1 with
  | Some pe => (evs1, v1, Some pe)
  | None =>
      let '(evs2, v2, e2) := phase host SelectSequences DropSequence v1 in
      match e2 with
      | Some pe => (evs1 ++ evs2, v2, Some pe)
      | None =>
          (evs1 ++ evs2 ++ [EvCommit (commit_fault host v2)], v2,
           commit_fault host v2)
      end
  end.

(** The world while connection [h] is inside its transaction: its view
    is [v] and the events [evs] have been added. *)
Definition with_txn (w : World) (h : nat) (v : catalog) (evs : list event) : World :=
  {| files := files w; durable := durable w;
     conns := <[h := {| view := v; closed := false |}]> (conns w);
     trace := trace w ++ evs |}.

(** Events of a trace by kind. *)
Definition succeeded (ev : event) : Prop :=
  match ev with
  | EvExecute _ None => True
  | _ => False
  end.

Definition committed (tr : list event) : Prop := In (EvCommit None) tr.

Definition database_error (tr : list event) (pe : pg_error) : Prop :=
  (exists s, In (EvExecute s (Some pe)) tr) \/ In (EvCommit (Some pe)) tr.

(** The statements executed, in order. *)
Definition statements (tr : list event) : list stmt :=
  omap (fun ev => match ev with
                  | EvExecute s _ => Some s
                  | _ => None
                  end) tr.

(** The order of the two phases: the table query, drops of tables, the
    sequence query, drops of sequences; a run may stop anywhere. *)
Definition is_drop_table (s : stmt) : bool :=
  match s with
  | DropTable _ _ => true
  | _ => false
  end.

Definition is_drop_sequence (s : stmt) : bool :=
  match s with
  | DropSequence _ _ => true
  | _ => false
  end.

Fixpoint after_tables (l : list stmt) : bool :=
  match l with
  | [] => true
  | DropTable _ _ :: r => after_tables r
  | SelectSequences :: r => forallb is_drop_sequence r
  | _ => false
  end.

Definition two_phases (l : list stmt) : bool :=
  match l with
  | [] => true
  | SelectTables :: r => after_tables r
  | _ => false
  end.

(** The events added by a run that took the world from [w] to [w']. *)
Definition new_events (w w' : World) : list event :=
  drop (length (trace w)) (trace w').

(** The connection attempt of [emptydb] succeeds: the driver is there,
    the configuration has the three variables, the server accepts. *)
Definition established (host : Host) (config : Config) : Prop :=
  exists database user password,
    psycopg2_present host = true
    /\ get_pg_environment config !! "PGDATABASE"%string = Some database
    /\ get_pg_environment config !! "PGUSER"%string = Some user
    /\ get_pg_environment config !! "PGPASSWORD"%string = Some password
    /\ connect_fault host database user password = None.

(** A server on which the third statement fails. *)
Definition failing_drop (s : stmt) (c : catalog)
  : pg_error + catalog * list (string * string) :=
  match s with
  | DropTable _ "users" => inl (PgErr "cannot drop table users: permission denied")
  | _ => pg_execute s c
  end.

Definition faulty_server : Host :=
  {| os_environ := ∅;
     localtime := sample_time;
     open_fault := fun _ => None;
     spawn := fun _ _ => Exited 0 [] [];
     psycopg2_present := true;
     connect_fault := fun _ _ _ => None;
     execute := failing_drop;
     commit_fault := fun _ => None |}.

(** ** Auxiliary notions of the proofs *)

(** Occurrence of a character in a string. *)
Fixpoint string_mem (c : ascii) (s : string) : bool :=
  match s with
  | EmptyString => false
  | String c' r => Ascii.eqb c c' || string_mem c r
  end.

(** The bytes an integer literal can be made of. *)
Definition literal_byte (c : byte) : bool :=
  Py_ISSPACE c || Py_ISDIGIT c || Byte.eqb c "_" || Byte.eqb c "+" || Byte.eqb c "-".

(** The fields of a row of integers as [psql -At] prints it: the line
    feed belongs to the last field. *)
Fixpoint row_fields (columns : list Z) : list (list byte) :=
  match columns with
  | [] => []
  | [z] => [b (decimal z) ++ [x0a]]
  | z :: r => b (decimal z) :: row_fields r
  end.

(** ** Further sample data *)

(** A host without the psycopg2 driver. *)
Definition driverless_host : Host :=
  {| os_environ := {[ "PGDATABASE"%string := "fromenv"%string ]};
     localtime := sample_time;
     open_fault := fun _ => None;
     spawn := fun _ _ => Exited 0 [] [];
     psycopg2_present := false;
     connect_fault := fun _ _ _ => None;
     execute := pg_execute;
     commit_fault := fun _ => None |}.

(** A host whose server refuses every connection. *)
Definition refusing_host : Host :=
  {| os_environ := ∅;
     localtime := sample_time;
     open_fault := fun _ => None;
     spawn := fun _ _ => Exited 0 [] [];
     psycopg2_present := true;
     connect_fault := fun _ _ _ => Some (PgErr "FATAL: password authentication failed");
     execute := pg_execute;
     commit_fault := fun _ => None |}.

(** A configuration without credentials of its own. *)
Definition bare_config : Config :=
  {| get_pg_environment := ∅;
     get_database_dump_path := "/var/dumps";
     get_pg_dump_binary := "/usr/bin/pg_dump";
     get_pg_restore_binary := "/usr/bin/pg_restore";
     get_psql_binary := "/usr/bin/psql" |}.

(** A world whose database has no relation left. *)
Definition empty_world : World :=
  {| files := ∅;
     durable := {| tables := []; sequences := [] |};
     conns := [];
     trace := [] |}.

(** Printable ASCII: from the space to the tilde. *)
Definition printable (c : ascii) : bool :=
  (32 <=? N_of_ascii c)%N && (N_of_ascii c <=? 126)%N.

Fixpoint string_forallb (p : ascii -> bool) (s : string) : bool :=
  match s with
  | EmptyString => true
  | String c r => p c && string_forallb p r
  end.

(** A host on which no program can be launched. *)
Definition unlaunchable_host : Host :=
  host_with (LaunchFailed (OSErr 2 "No such file or directory")).

(** Failing with an [M2EEException] whose message is printable ASCII. *)
Definition raises_printable {A} (r : result A) : Prop :=
  exists message,
    r = Err (M2EEException message None None)
    /\ string_forallb printable message = true.

(** The number of bars in an output. *)
Fixpoint count_bars (s : list byte) : nat :=
  match s with
  | [] => O
  | c :: r => if Byte.eqb c "|" then S (count_bars r) else count_bars r
  end.

(** A host whose process environment names a database. *)
Definition env_host (outcome : proc_outcome) : Host :=
  {| os_environ := {[ "PGDATABASE"%string := "fromenv"%string ]};
     localtime := sample_time;
     open_fault := fun _ => None;
     spawn := fun _ _ => outcome;
     psycopg2_present := true;
     connect_fault := fun _ _ _ => None;
     execute := pg_execute;
     commit_fault := fun _ => None |}.

(** The output of the connection-state query as [psql -At] prints it:
    one line per row, the count in decimal, a bar, the state, a line
    feed. *)
Definition psql_At_lines (rows : list activity_row) : list byte :=
  concat (map (fun r => row_line r ++ [x0a]) rows).

(** A row as the server sends it: the count printed in decimal, the
    state a valid text without bar and line break. *)
Definition rendered_row (r : activity_row) : Prop :=
  count_text r = b (decimal (count_value r))
  /\ decode (state_text r) = Some (state_name r)
  /\ Forall (fun c => c <> "|"%byte /\ c <> x0a /\ c <> x0d) (state_text r).

Definition waiting_row : activity_row :=
  {| count_text := b "1"; state_text := b "idle in transaction";
     state_name := "idle in transaction"; count_value := 1 |}.

Definition idle_again_row : activity_row :=
  {| count_text := b "4"; state_text := b "idle";
     state_name := "idle"; count_value := 4 |}.

(** ** The statements as texts *)

Definition nl : string := String (ascii_of_N 10) EmptyString.

(** The text of the two catalogue queries of [emptydb], which differ in
    the relation kind only: ['r'] for tables, ['S'] for sequences.  They
    list schema and name of every relation of that kind outside
    [pg_catalog] and [pg_toast] that is visible in the search path. *)
Definition catalog_query_sql (relkind : string) : string :=
  nl
  +:+ "                SELECT n.nspname, c.relname" +:+ nl
  +:+ "                FROM pg_catalog.pg_class AS c" +:+ nl
  +:+ "                LEFT JOIN pg_catalog.pg_namespace AS n ON n.oid = c.relnamespace" +:+ nl
  +:+ "                WHERE relkind = '" +:+ relkind +:+ "'" +:+ nl
  +:+ "                    AND n.nspname NOT IN ('pg_catalog', 'pg_toast')" +:+ nl
  +:+ "                    AND pg_catalog.pg_table_is_visible(c.oid);" +:+ nl
  +:+ "            ".

(** [psycopg2.sql.Identifier]: a name between double quotes, the double
    quotes inside it doubled. *)
Fixpoint escape_quotes (s : string) : string :=
  match s with
  | EmptyString => EmptyString
  | String c r =>
      if Ascii.eqb c (ascii_of_byte x22) then dq +:+ dq +:+ escape_quotes r
      else String c (escape_quotes r)
  end.

Definition quote_ident (s : string) : string := dq +:+ escape_quotes s +:+ dq.

(** What [cur.execute] sends for a statement. *)
Definition sql_text (s : stmt) : string :=
  match s with
  | SelectTables => catalog_query_sql "r"
  | SelectSequences => catalog_query_sql "S"
  | DropTable nsp rel =>
      "DROP TABLE " +:+ quote_ident nsp +:+ "." +:+ quote_ident rel +:+ " CASCADE;"
  | DropSequence nsp rel =>
      "DROP SEQUENCE " +:+ quote_ident nsp +:+ "." +:+ quote_ident rel +:+ " CASCADE;"
  end.

(** ** The first failure of a wipe *)

(** The database error [pe] is the first thing that goes wrong when the
    wipe runs on the committed catalogue [d]: in the table query, in the
    drop of a table, in the sequence query, in the drop of a sequence,
    or in the commit. *)
Definition first_failure (host : Host) (d : catalog) (pe : pg_error) : Prop :=
  execute host SelectTables d = inl pe
  \/ (exists v1 tabs evs1 v1',
        execute host SelectTables d = inr (v1, tabs)
        /\ drops host DropTable tabs v1 = (evs1, v1', Some pe))
  \/ (exists v1 tabs evs1 v1',
        execute host SelectTables d = inr (v1, tabs)
        /\ drops host DropTable tabs v1 = (evs1, v1', None)
        /\ execute host SelectSequences v1' = inl pe)
  \/ (exists v1 tabs evs1 v1' v2 seqs evs2 v2',
        execute host SelectTables d = inr (v1, tabs)
        /\ drops host DropTable tabs v1 = (evs1, v1', None)
        /\ execute host SelectSequences v1' = inr (v2, seqs)
        /\ drops host DropSequence seqs v2 = (evs2, v2', Some pe))
  \/ (exists v1 tabs evs1 v1' v2 seqs evs2 v2',
        execute host SelectTables d = inr (v1, tabs)
        /\ drops host DropTable tabs v1 = (evs1, v1', None)
        /\ execute host SelectSequences v1' = inr (v2, seqs)
        /\ drops host DropSequence seqs v2 = (evs2, v2', None)
        /\ commit_fault host v2' = Some pe).

(** * Properties *)

(** ** Evaluation on small inputs *)

Example split_fields : split "|" (b "12|7|") = [b "12"; b "7"; []].
Proof. reflexivity. Qed.

Example split_empty : split "|" [] = [[]].
Proof. reflexivity. Qed.

Example splitlines_mixed :
  splitlines [x61; x0d; x0a; x62; x0a; x0a; x63; x0d] = [[x61]; [x62]; []; [x63]].
Proof. reflexivity. Qed.

Example int_plain : int (b "42") = Some 42.
Proof. reflexivity. Qed.

Example int_newline : int [x2d; x35; x0a] = Some (-5).
Proof. reflexivity. Qed.

Example int_underscore : int (b "1_000") = Some 1000.
Proof. reflexivity. Qed.

Example int_empty : int [] = None.
Proof. reflexivity. Qed.

Example int_bad_underscore : int (b "1__0") = None /\ int (b "_1") = None /\ int (b "1_") = None.
Proof. repeat split; reflexivity. Qed.

Example strip_both : strip [x20; x61; x20; x62; x0a] = [x61; x20; x62].
Proof. reflexivity. Qed.

Example repr_plain : repr (b "oops") = "b'oops'"%string.
Proof. reflexivity. Qed.

Example repr_newline : repr [x61; x0a; xff] = "b'a\n\xff'"%string.
Proof. reflexivity. Qed.

Example decode_rejects_surrogate : decode [xed; xa0; x80] = None.
Proof. reflexivity. Qed.

Example decode_accepts_two_byte : decode [xc3; xa9] = Some (string_of_list_byte [xc3; xa9]).
Proof. reflexivity. Qed.

Example join_relative : os_path_join "/var/dumps" "db.backup" = "/var/dumps/db.backup"%string.
Proof. reflexivity. Qed.

Example join_trailing_sep : os_path_join "/var/dumps/" "db.backup" = "/var/dumps/db.backup"%string.
Proof. reflexivity. Qed.

Example join_absolute : os_path_join "/var/dumps" "/tmp/x" = "/tmp/x"%string.
Proof. reflexivity. Qed.

Example strftime_sample :
  strftime {| tm_year := 2024; tm_mon := 3; tm_mday := 9;
              tm_hour := 7; tm_min := 5; tm_sec := 0 |} = "20240309_070500"%string.
Proof. reflexivity. Qed.

Example psql_row_counts : psql_At_row [Some 10; Some (-3); None] = b "10|-3|" ++ [x0a].
Proof. reflexivity. Qed.

Example stat_database_sample :
  (pg_stat_database (host_with (Exited 0 (psql_At_row [Some 1; Some 2; Some 3; Some 4; Some 5]) []))
     sample_config sample_world).1 = Ok [1; 2; 3; 4; 5].
Proof. vm_compute. reflexivity. Qed.

Example stat_activity_sample :
  (pg_stat_activity (host_with (Exited 0 (b "19|idle" ++ [x0a] ++ b "2|active" ++ [x0a]) []))
     sample_config sample_world).1
  = Ok (<["active"%string := 2]> (<["idle"%string := 19]> ∅)).
Proof. vm_compute. reflexivity. Qed.

Example emptydb_sample :
  let '(r, w) := emptydb (host_with (Exited 0 [] [])) sample_config sample_world in
  r = Ok tt /\ durable w = {| tables := []; sequences := [] |}
  /\ conns w = [{| view := {| tables := []; sequences := [] |}; closed := true |}].
Proof. vm_compute. repeat split. Qed.

Example dumpdb_sample :
  let '(r, w) := dumpdb (host_with (Exited 0 (b "PGDMP") [])) sample_config None sample_world in
  r = Ok tt /\ files w !! "/var/dumps/appdb_20240309_070500.backup"%string = Some (b "PGDMP").
Proof. vm_compute. repeat split. Qed.

(** ** Strings *)

Lemma append_empty_r (s : string) : s +:+ EmptyString = s.
Proof.
  induction s as [|c s IH]; [reflexivity |].
  change (String c (s +:+ EmptyString) = String c s). now rewrite IH.
Qed.

Lemma append_assoc (s1 s2 s3 : string) : (s1 +:+ s2) +:+ s3 = s1 +:+ (s2 +:+ s3).
Proof.
  induction s1 as [|c s1 IH]; [reflexivity |].
  change (String c ((s1 +:+ s2) +:+ s3) = String c (s1 +:+ (s2 +:+ s3))).
  now rewrite IH.
Qed.

(** ** The interactive shell *)

Ltac unfold_monad :=
  cbv [bind ret raise lift try_except try_finally getitem percent_s
       subprocess_call check_output Popen_communicate Popen_communicate_to
       open_w].

(** C10: [psql] returns normally whatever the exit status of the client
    is, and it raises only when the client cannot be launched: then the
    [OSError] is wrapped in an [M2EEException] naming the binary. *)
Theorem psql_returns_for_every_exit_status (host : Host) (config : Config) (w : World) :
  (psql host config w).1 =
    match spawn host [get_psql_binary config] (make_env host config) with
    | Exited _ _ _ => Ok tt
    | LaunchFailed oe =>
        Err (M2EEException
               ("An error occured while calling psql, cmd: " +:+ get_psql_binary config)
               (Some oe) None)
    end.
Proof.
  unfold psql. unfold_monad.
  destruct (spawn host [get_psql_binary config] (make_env host config)) as [oe|rc out err];
    simpl; [now rewrite append_empty_r | reflexivity].
Qed.

Example psql_nonzero_exit :
  (psql (host_with (Exited 2 [] [])) sample_config sample_world).1 = Ok tt.
Proof. reflexivity. Qed.

Example psql_launch_failure :
  (psql (host_with (LaunchFailed (OSErr 2 "No such file or directory")))
     sample_config sample_world).1
  = Err (M2EEException "An error occured while calling psql, cmd: /usr/bin/psql"
           (Some (OSErr 2 "No such file or directory")) None).
Proof. reflexivity. Qed.

(** The command of [dumpdb] is a tuple of five, so formatting it with a
    single [%s] in the handler raises [TypeError]. *)
Example dumpdb_launch_failure :
  (dumpdb (host_with (LaunchFailed (OSErr 2 "No such file or directory")))
     sample_config None sample_world).1
  = Err (TypeError "not all arguments converted during string formatting").
Proof. reflexivity. Qed.

(** ** Storage size *)

Lemma pg_table_index_size_eval (host : Host) (config : Config) (w : World) :
  (pg_table_index_size host config w).1 =
    match spawn host [get_psql_binary config; "-At"; "-c"; table_index_size_sql]%string
            (make_env host config) with
    | LaunchFailed oe => Err (OSError oe)
    | Exited rc out _ =>
        if rc =? 0 then
          match ints (split "|" out) with
          | Some sizes => Ok sizes
          | None => Err ValueError
          end
        else Err (CalledProcessError rc
                    [get_psql_binary config; "-At"; "-c"; table_index_size_sql]%string out)
    end.
Proof.
  unfold pg_table_index_size. unfold_monad.
  destruct (spawn host _ (make_env host config)) as [oe|rc out err]; [reflexivity|].
  destruct (rc =? 0); [|reflexivity].
  destruct (ints (split "|" out)); reflexivity.
Qed.

(** C5, as the code has it: [pg_table_index_size] never fails with the
    module's own error kind.  A launch failure escapes as the [OSError]
    it is, a non-zero exit status as the [CalledProcessError] of
    [check_output], a field that is not an integer literal as
    [ValueError]; with exit status zero and integer fields the list of
    the integers is returned, whatever its length. *)
Theorem pg_table_index_size_failure_kinds (host : Host) (config : Config) (w : World) :
  let cmd := [get_psql_binary config; "-At"; "-c"; table_index_size_sql]%string in
  (pg_table_index_size host config w).1 =
    match spawn host cmd (make_env host config) with
    | LaunchFailed oe => Err (OSError oe)
    | Exited rc out _ =>
        if rc =? 0 then
          match ints (split "|" out) with
          | Some sizes => Ok sizes
          | None => Err ValueError
          end
        else Err (CalledProcessError rc cmd out)
    end
  /\ ~ is_M2EEException (pg_table_index_size host config w).1.
Proof.
  intros cmd. split; [apply pg_table_index_size_eval|].
  rewrite pg_table_index_size_eval. fold cmd.
  intros (m & a & c & H).
  destruct (spawn host cmd (make_env host config)) as [oe|rc out err]; [discriminate|].
  destruct (rc =? 0); [|discriminate].
  destruct (ints (split "|" out)); discriminate.
Qed.

(** C5 as stated fails: an abnormal exit surfaces as
    [CalledProcessError], unparsable output as [ValueError], and a third
    field is returned without complaint. *)
Lemma pg_table_index_size_other_kinds :
  (pg_table_index_size (host_with (Exited 1 [] (b "psql: connection refused")))
     sample_config sample_world).1
  = Err (CalledProcessError 1 ["/usr/bin/psql"; "-At"; "-c"; table_index_size_sql]%string [])
  /\ (pg_table_index_size (host_with (Exited 0 (b "many|few") []))
        sample_config sample_world).1 = Err ValueError
  /\ (pg_table_index_size (host_with (Exited 0 (b "1|2|3") []))
        sample_config sample_world).1 = Ok [1; 2; 3]
  /\ ~ is_M2EEException
       (pg_table_index_size (host_with (Exited 1 [] (b "psql: connection refused")))
          sample_config sample_world).1.
Proof.
  repeat split; try reflexivity.
  intros (m & a & c & H). discriminate H.
Qed.

(** C4, as the code has it: sums printed as zero give [[0; 0]]; null
    sums, which [psql] prints as two empty fields, make the integer
    conversion fail with [ValueError]. *)
Theorem pg_table_index_size_empty_totals
    (host : Host) (config : Config) (w : World) (err : list byte) :
  let cmd := [get_psql_binary config; "-At"; "-c"; table_index_size_sql]%string in
  (spawn host cmd (make_env host config) = Exited 0 (psql_At_row [Some 0; Some 0]) err ->
   (pg_table_index_size host config w).1 = Ok [0; 0])
  /\ (spawn host cmd (make_env host config) = Exited 0 (psql_At_row [None; None]) err ->
      (pg_table_index_size host config w).1 = Err ValueError).
Proof.
  intros cmd; split; intros H; rewrite pg_table_index_size_eval; fold cmd;
    rewrite H; reflexivity.
Qed.

Lemma pg_table_index_size_empty_totals_witness :
  (pg_table_index_size (host_with (Exited 0 (psql_At_row [Some 0; Some 0]) []))
     sample_config sample_world).1 = Ok [0; 0].
Proof.
  apply (proj1 (pg_table_index_size_empty_totals
                  (host_with (Exited 0 (psql_At_row [Some 0; Some 0]) []))
                  sample_config sample_world [])).
  reflexivity.
Defined.

(** C4 as stated fails: with null sums the call raises. *)
Lemma pg_table_index_size_null_sums_raise :
  (pg_table_index_size (host_with (Exited 0 (psql_At_row [None; None]) []))
     sample_config sample_world).1 = Err ValueError
  /\ (pg_table_index_size (host_with (Exited 0 (psql_At_row [None; None]) []))
        sample_config sample_world).1 <> Ok [0; 0].
Proof. split; [reflexivity | discriminate]. Qed.

(** ** The error stream *)

Lemma string_mem_append (c : ascii) (s1 s2 : string) :
  string_mem c (s1 +:+ s2) = string_mem c s1 || string_mem c s2.
Proof.
  induction s1 as [|c' s1 IH]; [reflexivity|].
  change (Ascii.eqb c c' || string_mem c (s1 +:+ s2)
          = Ascii.eqb c c' || string_mem c s1 || string_mem c s2).
  rewrite IH. now rewrite orb_assoc.
Qed.

(** A text carried verbatim brings all its characters along. *)
Lemma carries_verbatim_mem (message : string) (text : list byte) (c : ascii) :
  carries_verbatim message text ->
  string_mem c (string_of_list_byte text) = true ->
  string_mem c message = true.
Proof.
  intros (before & after & ->) H.
  rewrite !string_mem_append, H. now rewrite orb_true_r.
Qed.

Lemma nonempty_true {A} (l : list A) : l <> [] -> nonempty l = true.
Proof. destruct l; [congruence | reflexivity]. Qed.

Section ErrorStream.

Variables (host : Host) (config : Config) (w : World).
Variables (rc : Z) (out err : list byte).
Hypothesis every_process : forall cmd env, spawn host cmd env = Exited rc out err.
Hypothesis noisy : err <> [].

Lemma dumpdb_error_stream (name : option string) (db : string) :
  (forall path, open_fault host path = None) ->
  make_env host config !! "PGDATABASE"%string = Some db ->
  (dumpdb host config name w).1
  = Err (M2EEException
           ("An error occured while creating database dump: " +:+ repr (strip err))
           None None).
Proof.
  intros Hopen Hdb. unfold dumpdb. unfold_monad.
  destruct name as [name|]; [|rewrite Hdb];
    rewrite Hopen, every_process, (nonempty_true err noisy); simpl;
    now rewrite append_empty_r.
Qed.

Lemma restoredb_error_stream (dump_name db : string) :
  make_env host config !! "PGDATABASE"%string = Some db ->
  (restoredb host config dump_name w).1
  = Err (M2EEException
           ("An error occured while doing database restore: " +:+ repr (strip err) +:+ " ")
           None None).
Proof.
  intros Hdb. unfold restoredb. unfold_monad.
  rewrite Hdb, every_process, (nonempty_true err noisy). reflexivity.
Qed.

Lemma pg_stat_database_error_stream (db : string) :
  make_env host config !! "PGDATABASE"%string = Some db ->
  (pg_stat_database host config w).1
  = Err (M2EEException
           ("Retrieving pg_stat_database info failed: " +:+ repr (strip err))
           None None).
Proof.
  intros Hdb. unfold pg_stat_database. unfold_monad.
  rewrite Hdb, every_process, (nonempty_true err noisy). simpl.
  now rewrite append_empty_r.
Qed.

Lemma pg_stat_activity_error_stream (db user : string) :
  make_env host config !! "PGDATABASE"%string = Some db ->
  make_env host config !! "PGUSER"%string = Some user ->
  (pg_stat_activity host config w).1
  = Err (M2EEException
           ("Retrieving pg_stat_activity info failed: " +:+ repr (strip err))
           None None).
Proof.
  intros Hdb Huser. unfold pg_stat_activity. unfold_monad.
  rewrite Hdb, Huser, every_process, (nonempty_true err noisy). simpl.
  now rewrite append_empty_r.
Qed.

Lemma pg_table_index_size_error_stream :
  (pg_table_index_size host config w).1
  = if rc =? 0 then
      match ints (split "|" out) with
      | Some sizes => Ok sizes
      | None => Err ValueError
      end
    else Err (CalledProcessError rc
                [get_psql_binary config; "-At"; "-c"; table_index_size_sql]%string out).
Proof. rewrite pg_table_index_size_eval, every_process. reflexivity. Qed.

End ErrorStream.

(** C1, as the code has it: in [dumpdb], [restoredb], [pg_stat_database]
    and [pg_stat_activity] a non-empty error stream makes the call fail
    with [M2EEException], whatever the exit status; the message is the
    operation's fixed text followed by the [repr] of the error stream
    with surrounding whitespace stripped.  [pg_table_index_size] does
    not look at the error stream: its result depends on the exit status
    and the output alone. *)
Theorem error_stream_failure
    (host : Host) (config : Config) (w : World)
    (name : option string) (dump_name db user : string)
    (rc : Z) (out err : list byte) :
  (forall cmd env, spawn host cmd env = Exited rc out err) ->
  (forall path, open_fault host path = None) ->
  make_env host config !! "PGDATABASE"%string = Some db ->
  make_env host config !! "PGUSER"%string = Some user ->
  err <> [] ->
  (dumpdb host config name w).1
  = Err (M2EEException
           ("An error occured while creating database dump: " +:+ repr (strip err))
           None None)
  /\ (restoredb host config dump_name w).1
     = Err (M2EEException
              ("An error occured while doing database restore: " +:+ repr (strip err) +:+ " ")
              None None)
  /\ (pg_stat_database host config w).1
     = Err (M2EEException
              ("Retrieving pg_stat_database info failed: " +:+ repr (strip err))
              None None)
  /\ (pg_stat_activity host config w).1
     = Err (M2EEException
              ("Retrieving pg_stat_activity info failed: " +:+ repr (strip err))
              None None)
  /\ (pg_table_index_size host config w).1
     = (if rc =? 0 then
          match ints (split "|" out) with
          | Some sizes => Ok sizes
          | None => Err ValueError
          end
        else Err (CalledProcessError rc
                    [get_psql_binary config; "-At"; "-c"; table_index_size_sql]%string out)).
Proof.
  intros Hspawn Hopen Hdb Huser Herr.
  split; [eapply dumpdb_error_stream; eauto|].
  split; [eapply restoredb_error_stream; eauto|].
  split; [eapply pg_stat_database_error_stream; eauto|].
  split; [eapply pg_stat_activity_error_stream; eauto|].
  eapply pg_table_index_size_error_stream; eauto.
Qed.

Lemma error_stream_failure_witness :
  (dumpdb (host_with (Exited 0 (b "10|20") (b " WARNING: collation mismatch" ++ [x0a])))
     sample_config None sample_world).1
  = Err (M2EEException
           "An error occured while creating database dump: b'WARNING: collation mismatch'"
           None None)
  /\ (pg_table_index_size
        (host_with (Exited 0 (b "10|20") (b " WARNING: collation mismatch" ++ [x0a])))
        sample_config sample_world).1 = Ok [10; 20].
Proof.
  pose proof (error_stream_failure
                (host_with (Exited 0 (b "10|20") (b " WARNING: collation mismatch" ++ [x0a])))
                sample_config sample_world None "x.backup" "appdb" "app"
                0 (b "10|20") (b " WARNING: collation mismatch" ++ [x0a])
                (fun _ _ => eq_refl) (fun _ => eq_refl) eq_refl eq_refl
                ltac:(discriminate)) as (Hdump & _ & _ & _ & Hsize).
  split; [exact Hdump | exact Hsize].
Defined.

(** C1 as stated fails twice: [pg_table_index_size] succeeds although
    the client wrote to its error stream, and the message of [dumpdb]
    does not contain the error text unchanged (its final line feed is
    stripped). *)
Lemma error_stream_not_always_fatal_nor_verbatim :
  ~ fails_carrying
      (pg_table_index_size (host_with (Exited 0 (b "10|20") (b "WARNING: collation mismatch")))
         sample_config sample_world).1
      (b "WARNING: collation mismatch")
  /\ ~ fails_carrying
         (dumpdb (host_with (Exited 1 [] (b "pg_dump: no such database" ++ [x0a])))
            sample_config None sample_world).1
         (b "pg_dump: no such database" ++ [x0a]).
Proof.
  split.
  - intros (m & a & c & H & _). discriminate H.
  - intros (m & a & c & H & Hv).
    assert (Hm : m = "An error occured while creating database dump: b'pg_dump: no such database'"%string).
    { vm_compute in H. congruence. }
    subst m.
    apply (carries_verbatim_mem _ _ (ascii_of_byte x0a)) in Hv; [|reflexivity].
    discriminate Hv.
Qed.

(** ** Splitting and integer literals *)

Lemma byte_eqb_refl (c : byte) : Byte.eqb c c = true.
Proof. now apply byte_dec_lb. Qed.

Lemma byte_eqb_neq (c d : byte) : c <> d -> Byte.eqb c d = false.
Proof.
  intros H. destruct (Byte.eqb c d) eqn:E; [|reflexivity].
  apply byte_dec_bl in E. contradiction.
Qed.

(** A field without separator, followed by a separator, is the first
    field of the split. *)
Lemma split_app_sep (sep : byte) (f rest : list byte) :
  ~ In sep f -> split sep (f ++ sep :: rest) = f :: split sep rest.
Proof.
  induction f as [|c f IH]; intros Hnot; simpl.
  - now rewrite byte_eqb_refl.
  - rewrite byte_eqb_neq by (intros ->; apply Hnot; now left).
    rewrite IH by (intros Hin; apply Hnot; now right). reflexivity.
Qed.

Lemma split_no_sep (sep : byte) (f : list byte) :
  ~ In sep f -> split sep f = [f].
Proof.
  induction f as [|c f IH]; intros Hnot; simpl; [reflexivity|].
  rewrite byte_eqb_neq by (intros ->; apply Hnot; now left).
  rewrite IH by (intros Hin; apply Hnot; now right). reflexivity.
Qed.

Lemma split_join_bar (fields : list (list byte)) :
  fields <> [] ->
  Forall (fun f => ~ In "|"%byte f) fields ->
  split "|" (join_bar fields) = fields.
Proof.
  induction fields as [|f fs IH]; intros Hne Hall; [congruence|].
  inversion Hall as [|? ? Hf Hfs]; subst.
  destruct fs as [|g fs].
  - simpl. now apply split_no_sep.
  - change (join_bar (f :: g :: fs)) with (f ++ "|"%byte :: join_bar (g :: fs)).
    rewrite split_app_sep by assumption.
    rewrite IH; [reflexivity | discriminate | assumption].
Qed.

Lemma forallb_lstrip (s : list byte) :
  forallb literal_byte (lstrip s) = true -> forallb literal_byte s = true.
Proof.
  induction s as [|c r IH]; simpl; [auto|].
  destruct (Py_ISSPACE c) eqn:E; [|auto].
  intros H. unfold literal_byte at 1. rewrite E. simpl. auto.
Qed.

Lemma lstrip_nil_literal (s : list byte) :
  lstrip s = [] -> forallb literal_byte s = true.
Proof.
  intros H. apply forallb_lstrip. now rewrite H.
Qed.

Lemma scan_digits_literal (s : list byte) :
  forall acc prev v rest,
    scan_digits acc prev s = Some (v, rest) ->
    forallb literal_byte rest = true ->
    forallb literal_byte s = true.
Proof.
  induction s as [|c r IH]; intros acc prev v rest H Hrest; simpl in *.
  - reflexivity.
  - destruct (Py_ISDIGIT c) eqn:Ed.
    + unfold literal_byte at 1. rewrite Ed, orb_true_r. simpl. eauto.
    + destruct (Byte.eqb c "_") eqn:Eu.
      * destruct prev; [discriminate|].
        unfold literal_byte at 1. rewrite Eu, !orb_true_r. simpl. eauto.
      * destruct prev; [discriminate|].
        injection H as <- <-. exact Hrest.
Qed.

Lemma int_literal_bytes (s : list byte) (z : Z) :
  int s = Some z -> forallb literal_byte s = true.
Proof.
  unfold int. intros H. apply forallb_lstrip.
  destruct (lstrip s) as [|c r] eqn:Es; [discriminate|].
  assert (Hscan : forall s2, match s2 with
                    | c0 :: _ =>
                        if Py_ISDIGIT c0 then
                          match scan_digits 0 false s2 with
                          | Some (v, rest) =>
                              match lstrip rest with
                              | [] => Some v
                              | _ :: _ => None
                              end
                          | None => None
                          end
                        else None
                    | [] => None
                    end <> None -> forallb literal_byte s2 = true).
  { intros s2 Hs2. destruct s2 as [|c0 r0]; [congruence|].
    destruct (Py_ISDIGIT c0); [|congruence].
    destruct (scan_digits 0 false (c0 :: r0)) as [[v rest]|] eqn:E; [|congruence].
    destruct (lstrip rest) eqn:El; [|congruence].
    eapply scan_digits_literal; [exact E|]. now apply lstrip_nil_literal. }
  destruct (Byte.eqb c "+") eqn:Eplus.
  - simpl. unfold literal_byte at 1. rewrite Eplus, !orb_true_r. simpl.
    apply Hscan. destruct r as [|c0 r0]; [discriminate|].
    destruct (Py_ISDIGIT c0); [|discriminate].
    destruct (scan_digits 0 false (c0 :: r0)) as [[v rest]|]; [|discriminate].
    destruct (lstrip rest); [discriminate|discriminate].
  - destruct (Byte.eqb c "-") eqn:Eminus.
    + simpl. unfold literal_byte at 1. rewrite Eminus, !orb_true_r. simpl.
      apply Hscan. destruct r as [|c0 r0]; [discriminate|].
      destruct (Py_ISDIGIT c0); [|discriminate].
      destruct (scan_digits 0 false (c0 :: r0)) as [[v rest]|]; [|discriminate].
      destruct (lstrip rest); [discriminate|discriminate].
    + apply Hscan.
      destruct (Py_ISDIGIT c); [|discriminate].
      destruct (scan_digits 0 false (c :: r)) as [[v rest]|]; [|discriminate].
      destruct (lstrip rest); [discriminate|discriminate].
Qed.

Lemma int_no_bar (s : list byte) (z : Z) : int s = Some z -> ~ In "|"%byte s.
Proof.
  intros H Hin. apply int_literal_bytes in H.
  rewrite forallb_forall in H. specialize (H _ Hin). discriminate H.
Qed.

Lemma ints_Forall2 (fields : list (list byte)) (zs : list Z) :
  Forall2 (fun f z => int f = Some z) fields zs -> ints fields = Some zs.
Proof.
  induction 1 as [|f z fs zs Hf _ IH]; simpl; [reflexivity|].
  now rewrite Hf, IH.
Qed.

(** Integer literals joined by bars parse back to their values, however
    many there are. *)
Lemma ints_split_join (fields : list (list byte)) (zs : list Z) :
  fields <> [] ->
  Forall2 (fun f z => int f = Some z) fields zs ->
  ints (split "|" (join_bar fields)) = Some zs.
Proof.
  intros Hne H. rewrite split_join_bar; [now apply ints_Forall2 | assumption |].
  clear Hne. induction H as [|f z fs zs Hf _ IH]; constructor; [|assumption].
  eapply int_no_bar; eauto.
Qed.

(** ** Decimal rendering and [int] *)

Lemma b_String (c : ascii) (s : string) : b (String c s) = byte_of_ascii c :: b s.
Proof. reflexivity. Qed.

Lemma digit_range (d : Z) :
  0 <= d <= 9 ->
  d = 0 \/ d = 1 \/ d = 2 \/ d = 3 \/ d = 4 \/ d = 5 \/ d = 6 \/ d = 7 \/ d = 8 \/ d = 9.
Proof. lia. Qed.

Lemma digit_char_facts (d : Z) :
  0 <= d <= 9 ->
  let c := byte_of_ascii (digit_char d) in
  Py_ISDIGIT c = true /\ digit_value c = d /\ Py_ISSPACE c = false
  /\ Byte.eqb c "+" = false /\ Byte.eqb c "-" = false.
Proof.
  intros H. apply digit_range in H.
  repeat (destruct H as [->|H]); try subst d; vm_compute; repeat split; reflexivity.
Qed.

Lemma space_not_digit (c : byte) :
  Py_ISSPACE c = true -> Py_ISDIGIT c = false /\ Byte.eqb c "_" = false.
Proof. destruct c; vm_compute; intros H; (discriminate H || (split; reflexivity)). Qed.

Lemma decimal_fuel_S (f : nat) (n : Z) (t : string) :
  decimal_fuel (S f) n t
  = if n <? 10 then String (digit_char (n mod 10)) t
    else decimal_fuel f (n / 10) (String (digit_char (n mod 10)) t).
Proof. reflexivity. Qed.

Lemma scan_digits_decimal_fuel (fuel : nat) :
  forall (n : Z) (t : string) (rest : list byte),
    0 <= n < Z.of_nat fuel ->
    exists k, 0 <= k /\
      forall a, scan_digits a false (b (decimal_fuel fuel n t) ++ rest)
                = scan_digits (a * 10 ^ k + n) false (b t ++ rest).
Proof.
  induction fuel as [|f IH]; intros n t rest Hn; [lia|].
  rewrite decimal_fuel_S. destruct (n <? 10) eqn:E.
  - apply Z.ltb_lt in E. exists 1. split; [lia|]. intros a.
    rewrite b_String. simpl app. simpl scan_digits.
    destruct (digit_char_facts (n mod 10)) as (Hd & Hv & _);
      [rewrite Z.mod_small; lia|].
    rewrite Hd, Hv, Z.mod_small by lia. f_equal. lia.
  - apply Z.ltb_ge in E.
    destruct (IH (n / 10) (String (digit_char (n mod 10)) t) rest) as (k & Hk & Hscan).
    { split; [apply Z.div_pos; lia|].
      assert (n / 10 < n) by (apply Z.div_lt; lia). lia. }
    exists (k + 1). split; [lia|]. intros a. rewrite Hscan.
    rewrite b_String. simpl app. simpl scan_digits.
    destruct (digit_char_facts (n mod 10)) as (Hd & Hv & _);
      [pose proof (Z.mod_pos_bound n 10); lia|].
    rewrite Hd, Hv. f_equal.
    rewrite Z.pow_add_r, Z.pow_1_r by lia.
    pose proof (Z_div_mod_eq_full n 10). lia.
Qed.

Lemma decimal_fuel_head (f : nat) :
  forall (n : Z) (t : string),
    0 <= n ->
    exists d r, 0 <= d <= 9 /\ decimal_fuel (S f) n t = String (digit_char d) r.
Proof.
  induction f as [|f IH]; intros n t Hn; rewrite decimal_fuel_S.
  - simpl decimal_fuel. exists (n mod 10), t. split; [pose proof (Z.mod_pos_bound n 10); lia|].
    now destruct (n <? 10).
  - destruct (n <? 10) eqn:E.
    + exists (n mod 10), t. split; [pose proof (Z.mod_pos_bound n 10); lia | reflexivity].
    + apply Z.ltb_ge in E.
      destruct (IH (n / 10) (String (digit_char (n mod 10)) t)) as (d & r & Hd & Heq);
        [apply Z.div_pos; lia|].
      exists d, r. split; [assumption|]. exact Heq.
Qed.

Lemma scan_digits_spaces (v : Z) (ws : list byte) :
  lstrip ws = [] -> scan_digits v false ws = Some (v, ws).
Proof.
  destruct ws as [|c r]; [reflexivity|]. simpl.
  destruct (Py_ISSPACE c) eqn:E; [|discriminate].
  destruct (space_not_digit c E) as (-> & ->). reflexivity.
Qed.

(** The digits of a natural number, followed by whitespace, are a
    literal of that number. *)
Lemma int_decimal_nonneg (n : Z) (ws : list byte) :
  0 <= n -> lstrip ws = [] ->
  int (b (decimal_fuel (S (Z.to_nat n)) n EmptyString) ++ ws) = Some n.
Proof.
  intros Hn Hws.
  destruct (decimal_fuel_head (Z.to_nat n) n EmptyString Hn) as (d & r & Hd & Heq).
  destruct (scan_digits_decimal_fuel (S (Z.to_nat n)) n EmptyString ws) as (k & _ & Hscan);
    [lia|].
  specialize (Hscan 0).
  replace (0 * 10 ^ k + n) with n in Hscan by lia.
  change (b EmptyString ++ ws) with ws in Hscan.
  rewrite (scan_digits_spaces n ws Hws) in Hscan.
  destruct (digit_char_facts d Hd) as (Hdig & _ & Hsp & Hplus & Hminus).
  unfold int. rewrite Heq in *. rewrite b_String in *. simpl app in *.
  simpl lstrip. rewrite Hsp, Hplus, Hminus, Hdig, Hscan, Hws. reflexivity.
Qed.

Lemma int_decimal (z : Z) (ws : list byte) :
  lstrip ws = [] -> int (b (decimal z) ++ ws) = Some z.
Proof.
  intros Hws. unfold decimal. destruct (z <? 0) eqn:E.
  - apply Z.ltb_lt in E.
    pose proof (int_decimal_nonneg (- z) ws ltac:(lia) Hws) as H.
    destruct (decimal_fuel_head (Z.to_nat (- z)) (- z) EmptyString ltac:(lia))
      as (d & r & Hd & Heq).
    destruct (digit_char_facts d Hd) as (Hdig & _ & Hsp & Hplus & Hminus).
    change (b ("-" +:+ decimal_fuel (S (Z.to_nat (- z))) (- z) EmptyString) ++ ws)
      with (x2d :: (b (decimal_fuel (S (Z.to_nat (- z))) (- z) EmptyString) ++ ws)).
    unfold int in *. rewrite Heq in *. rewrite b_String in *. simpl app in *.
    simpl lstrip in *. rewrite Hsp, Hplus, Hminus, Hdig in H.
    change (Py_ISSPACE x2d) with false. cbv iota.
    change (Byte.eqb x2d "+") with false. change (Byte.eqb x2d "-") with true.
    cbv iota. rewrite Hdig.
    destruct (scan_digits 0 false (byte_of_ascii (digit_char d) :: b r ++ ws))
      as [[v rest]|]; [|discriminate].
    destruct (lstrip rest); [|discriminate].
    injection H as ->. f_equal. lia.
  - apply Z.ltb_ge in E. now apply int_decimal_nonneg.
Qed.

(** ** Activity counters *)

Lemma psql_At_row_fields (columns : list Z) :
  columns <> [] ->
  psql_At_row (map Some columns) = join_bar (row_fields columns).
Proof.
  unfold psql_At_row. induction columns as [|z r IH]; intros Hne; [congruence|].
  destruct r as [|z' r]; [reflexivity|].
  change (map Some (z :: z' :: r)) with (Some z :: map Some (z' :: r)).
  change (row_fields (z :: z' :: r)) with (b (decimal z) :: row_fields (z' :: r)).
  assert (Hr : row_fields (z' :: r) <> []) by (destruct r; discriminate).
  destruct (row_fields (z' :: r)) as [|g gs] eqn:Eg; [congruence|].
  change (join_bar (b (decimal z) :: g :: gs))
    with (b (decimal z) ++ "|"%byte :: join_bar (g :: gs)).
  rewrite <- IH by discriminate.
  simpl map. simpl join_bar. now rewrite <- app_assoc.
Qed.

Lemma row_fields_literals (columns : list Z) :
  Forall2 (fun f z => int f = Some z) (row_fields columns) columns.
Proof.
  induction columns as [|z r IH]; [constructor|].
  destruct r as [|z' r].
  - constructor; [|constructor]. now apply int_decimal.
  - change (row_fields (z :: z' :: r)) with (b (decimal z) :: row_fields (z' :: r)).
    constructor; [|exact IH].
    rewrite <- (app_nil_r (b (decimal z))). now apply int_decimal.
Qed.

(** A row of integers printed by [psql -At] parses back to the integers,
    in their order. *)
Lemma ints_psql_At_row (columns : list Z) :
  columns <> [] ->
  ints (split "|" (psql_At_row (map Some columns))) = Some columns.
Proof.
  intros Hne. rewrite psql_At_row_fields by assumption.
  apply ints_split_join; [|apply row_fields_literals].
  destruct columns as [|z [|z' r]]; [congruence | discriminate | discriminate].
Qed.

Lemma pg_stat_database_eval
    (host : Host) (config : Config) (w : World) (db : string) (rc : Z) (out : list byte) :
  make_env host config !! "PGDATABASE"%string = Some db ->
  spawn host [get_psql_binary config; "-At"; "-c"; stat_database_sql db]%string
    (make_env host config) = Exited rc out [] ->
  (pg_stat_database host config w).1
  = match ints (split "|" out) with
    | Some counters => Ok counters
    | None => Err ValueError
    end.
Proof.
  intros Hdb Hspawn. unfold pg_stat_database. unfold_monad.
  rewrite Hdb, Hspawn. simpl.
  destruct (ints (split "|" out)); reflexivity.
Qed.

(** C3, as the code has it: with a silent error stream
    [pg_stat_database] returns the integers of the bar-separated fields
    of the output, in their order and however many there are; for the
    one row of five columns that the query prints these are the five
    counters [[commits; rollbacks; inserted; updated; deleted]].  A
    field that is not an integer literal raises [ValueError]. *)
Theorem pg_stat_database_counters
    (host : Host) (config : Config) (w : World) (db : string) (rc : Z) (out : list byte) :
  make_env host config !! "PGDATABASE"%string = Some db ->
  spawn host [get_psql_binary config; "-At"; "-c"; stat_database_sql db]%string
    (make_env host config) = Exited rc out [] ->
  (pg_stat_database host config w).1
  = match ints (split "|" out) with
    | Some counters => Ok counters
    | None => Err ValueError
    end
  /\ (forall commits rollbacks inserted updated deleted : Z,
         out = psql_At_row [Some commits; Some rollbacks; Some inserted;
                            Some updated; Some deleted] ->
         (pg_stat_database host config w).1
         = Ok [commits; rollbacks; inserted; updated; deleted]).
Proof.
  intros Hdb Hspawn.
  pose proof (pg_stat_database_eval host config w db rc out Hdb Hspawn) as Heval.
  split; [exact Heval|].
  intros c r i u d ->. rewrite Heval.
  change [Some c; Some r; Some i; Some u; Some d] with (map Some [c; r; i; u; d]).
  now rewrite ints_psql_At_row.
Qed.

Lemma pg_stat_database_counters_witness :
  (pg_stat_database
     (host_with (Exited 0 (psql_At_row [Some 812; Some 3; Some 40; Some 17; Some 5]) []))
     sample_config sample_world).1 = Ok [812; 3; 40; 17; 5].
Proof.
  apply (proj2 (pg_stat_database_counters
                  (host_with (Exited 0 (psql_At_row [Some 812; Some 3; Some 40; Some 17; Some 5]) []))
                  sample_config sample_world "appdb" 0
                  (psql_At_row [Some 812; Some 3; Some 40; Some 17; Some 5])
                  eq_refl eq_refl)).
  reflexivity.
Defined.

(** C3 as stated fails: three fields are returned as three integers, and
    fields that are no integers (or no row at all) raise [ValueError],
    not the module's own error. *)
Lemma pg_stat_database_no_count_check :
  (pg_stat_database (host_with (Exited 0 (b "1|2|3" ++ [x0a]) []))
     sample_config sample_world).1 = Ok [1; 2; 3]
  /\ (pg_stat_database (host_with (Exited 0 (b "1|2|3|4|5|6" ++ [x0a]) []))
        sample_config sample_world).1 = Ok [1; 2; 3; 4; 5; 6]
  /\ (pg_stat_database (host_with (Exited 0 (b "a|b|c|d|e" ++ [x0a]) []))
        sample_config sample_world).1 = Err ValueError
  /\ (pg_stat_database (host_with (Exited 0 [] [])) sample_config sample_world).1
     = Err ValueError
  /\ ~ is_M2EEException
       (pg_stat_database (host_with (Exited 0 (b "1|2|3" ++ [x0a]) []))
          sample_config sample_world).1
  /\ ~ is_M2EEException
       (pg_stat_database (host_with (Exited 0 (b "a|b|c|d|e" ++ [x0a]) []))
          sample_config sample_world).1.
Proof.
  repeat split; try reflexivity; intros (m & a & c & H); discriminate H.
Qed.

(** ** Connection states *)

Lemma split_row_line (r : activity_row) :
  row_ok r -> split "|" (row_line r) = [count_text r; state_text r].
Proof.
  intros (Hint & _ & Hstate). unfold row_line.
  rewrite split_app_sep by (eapply int_no_bar; eauto).
  now rewrite split_no_sep.
Qed.

(** On well-formed lines the comprehension is a left fold of
    insertions. *)
Lemma state_counts_rows (rows : list activity_row) :
  forall acc : gmap string Z,
    Forall row_ok rows ->
    state_counts (row_line <$> rows) acc = Ok (foldl record_row acc rows).
Proof.
  induction rows as [|r rows IH]; intros acc Hall; [reflexivity|].
  inversion Hall as [|? ? Hr Hrows]; subst.
  change (row_line <$> r :: rows) with (row_line r :: (row_line <$> rows)).
  simpl state_counts. rewrite (split_row_line r Hr).
  destruct Hr as (Hint & Hdec & _). rewrite Hdec, Hint.
  now rewrite IH.
Qed.

Lemma foldl_record_absent (rows : list activity_row) :
  forall (acc : gmap string Z) (key : string),
    key ∉ (state_name <$> rows) ->
    foldl record_row acc rows !! key = acc !! key.
Proof.
  induction rows as [|r rows IH]; intros acc key Hnot; [reflexivity|].
  simpl. rewrite IH by (intros H; apply Hnot; now right).
  unfold record_row. apply lookup_insert_ne.
  intros Heq. apply Hnot. rewrite <- Heq. now left.
Qed.

Lemma foldl_record_origin (rows : list activity_row) :
  forall (acc : gmap string Z) (key : string) (n : Z),
    foldl record_row acc rows !! key = Some n ->
    acc !! key = Some n
    \/ exists r, r ∈ rows /\ state_name r = key /\ count_value r = n.
Proof.
  induction rows as [|r rows IH]; intros acc key n H; [now left|].
  simpl in H. apply IH in H as [H|(r' & Hin & Hk & Hn)].
  - unfold record_row in H. rewrite lookup_insert in H.
    destruct (decide (state_name r = key)) as [Heq|Hne].
    + right. exists r. split; [now left|]. split; [assumption | congruence].
    + now left.
  - right. exists r'. split; [now right | auto].
Qed.

Lemma foldl_record_distinct (rows : list activity_row) :
  forall (acc : gmap string Z) (r : activity_row),
    NoDup (state_name <$> rows) ->
    r ∈ rows ->
    foldl record_row acc rows !! state_name r = Some (count_value r).
Proof.
  induction rows as [|r0 rows IH]; intros acc r Hnd Hin.
  - inversion Hin.
  - change (state_name <$> r0 :: rows) with (state_name r0 :: (state_name <$> rows)) in Hnd.
    apply NoDup_cons in Hnd as (Hfresh & Hnd).
    simpl. apply elem_of_cons in Hin as [->|Hin].
    + rewrite foldl_record_absent by assumption.
      unfold record_row. apply lookup_insert_eq.
    + now apply IH.
Qed.

Lemma foldl_record_present (rows : list activity_row) :
  forall (acc : gmap string Z) (key : string),
    key ∈ (state_name <$> rows) ->
    is_Some (foldl record_row acc rows !! key).
Proof.
  induction rows as [|r rows IH]; intros acc key Hin; [inversion Hin|].
  simpl. destruct (decide (key ∈ (state_name <$> rows))) as [Hd|Hd]; [now apply IH|].
  rewrite foldl_record_absent by assumption.
  change (state_name <$> r :: rows) with (state_name r :: (state_name <$> rows)) in Hin.
  apply elem_of_cons in Hin as [->|Hin]; [|contradiction].
  unfold record_row. rewrite lookup_insert_eq. eauto.
Qed.

Lemma pg_stat_activity_eval
    (host : Host) (config : Config) (w : World) (db user : string)
    (rc : Z) (out : list byte) :
  make_env host config !! "PGDATABASE"%string = Some db ->
  make_env host config !! "PGUSER"%string = Some user ->
  spawn host [get_psql_binary config; "-At"; "-c"; stat_activity_sql db user]%string
    (make_env host config) = Exited rc out [] ->
  (pg_stat_activity host config w).1 = state_counts (splitlines out) ∅.
Proof.
  intros Hdb Huser Hspawn. unfold pg_stat_activity. unfold_monad.
  rewrite Hdb, Huser, Hspawn. reflexivity.
Qed.

(** C6: when every line of the output is [<count>|<state>],
    [pg_stat_activity] returns a mapping whose keys are exactly the
    states of the lines; a key is mapped to the count of a line with
    that state (of the line itself when the states are distinct, as they
    are after [GROUP BY]); a state that is in no line is not a key. *)
Theorem pg_stat_activity_mapping
    (host : Host) (config : Config) (w : World) (db user : string)
    (rc : Z) (out : list byte) (rows : list activity_row) :
  make_env host config !! "PGDATABASE"%string = Some db ->
  make_env host config !! "PGUSER"%string = Some user ->
  spawn host [get_psql_binary config; "-At"; "-c"; stat_activity_sql db user]%string
    (make_env host config) = Exited rc out [] ->
  splitlines out = row_line <$> rows ->
  Forall row_ok rows ->
  exists m : gmap string Z,
    (pg_stat_activity host config w).1 = Ok m
    /\ (forall key, is_Some (m !! key) <-> key ∈ (state_name <$> rows))
    /\ (forall key n, m !! key = Some n ->
          exists r, r ∈ rows /\ state_name r = key /\ count_value r = n)
    /\ (NoDup (state_name <$> rows) ->
          forall r, r ∈ rows -> m !! state_name r = Some (count_value r))
    /\ (forall key, key ∉ (state_name <$> rows) -> m !! key = None).
Proof.
  intros Hdb Huser Hspawn Hlines Hok.
  exists (foldl record_row ∅ rows).
  split.
  { rewrite (pg_stat_activity_eval host config w db user rc out) by assumption.
    rewrite Hlines. now apply state_counts_rows. }
  assert (Habsent : forall key, key ∉ (state_name <$> rows) ->
                       foldl record_row ∅ rows !! key = None).
  { intros key Hnot. now rewrite foldl_record_absent. }
  assert (Horigin : forall key n, foldl record_row ∅ rows !! key = Some n ->
                      exists r, r ∈ rows /\ state_name r = key /\ count_value r = n).
  { intros key n H. apply foldl_record_origin in H as [H|H]; [|exact H].
    rewrite lookup_empty in H. discriminate. }
  split; [|split; [exact Horigin | split; [|exact Habsent]]].
  - intros key. split.
    + intros [n Hn]. apply Horigin in Hn as (r & Hin & <- & _).
      apply list_elem_of_fmap. eauto.
    + intros Hin. now apply foldl_record_present.
  - intros Hnd r Hin. now apply foldl_record_distinct.
Qed.

Lemma pg_stat_activity_mapping_witness :
  exists m : gmap string Z,
    (pg_stat_activity
       (host_with (Exited 0 (b "19|idle" ++ [x0a] ++ b "2|active" ++ [x0a]) []))
       sample_config sample_world).1 = Ok m
    /\ m !! "idle"%string = Some 19
    /\ m !! "idle in transaction"%string = None.
Proof.
  destruct (pg_stat_activity_mapping
              (host_with (Exited 0 (b "19|idle" ++ [x0a] ++ b "2|active" ++ [x0a]) []))
              sample_config sample_world "appdb" "app" 0
              (b "19|idle" ++ [x0a] ++ b "2|active" ++ [x0a])
              [idle_row; active_row]
              eq_refl eq_refl eq_refl eq_refl)
    as (m & Hm & _ & _ & Hdistinct & Habsent).
  - repeat constructor; try reflexivity; vm_compute; intuition discriminate.
  - exists m. split; [exact Hm|]. split.
    + assert (Hnd : NoDup (state_name <$> [idle_row; active_row]))
        by (apply NoDup_cons; split;
            [intros H; apply list_elem_of_singleton in H; discriminate H
            | apply NoDup_singleton]).
      apply (Hdistinct Hnd idle_row). now left.
    + apply Habsent. intros H.
      repeat (apply elem_of_cons in H as [H|H]; [discriminate H|]).
      inversion H.
Defined.

(** ** The dump file *)

Example timestamp_pattern_sample : timestamp_pattern "20240309_070500" = true.
Proof. reflexivity. Qed.

Example timestamp_pattern_short : timestamp_pattern "2024039_070500" = false.
Proof. reflexivity. Qed.

Lemma is_digit_digit_char (d : Z) : 0 <= d <= 9 -> is_digit (digit_char d) = true.
Proof.
  intros H. apply digit_range in H.
  repeat (destruct H as [->|H]); try subst d; reflexivity.
Qed.

Lemma decimal_four_digits (y : Z) :
  1000 <= y <= 9999 ->
  decimal y
  = String (digit_char (y / 1000))
      (String (digit_char (y / 100 mod 10))
         (String (digit_char (y / 10 mod 10))
            (String (digit_char (y mod 10)) EmptyString))).
Proof.
  intros Hy. unfold decimal.
  replace (y <? 0) with false by (symmetry; apply Z.ltb_ge; lia).
  destruct (Z.to_nat y) as [|[|[|k]]] eqn:E; try lia.
  rewrite !decimal_fuel_S.
  replace (y <? 10) with false by (symmetry; apply Z.ltb_ge; lia).
  replace (y / 10 <? 10) with false
    by (symmetry; apply Z.ltb_ge; Z.to_euclidean_division_equations; lia).
  replace (y / 10 / 10 <? 10) with false
    by (symmetry; apply Z.ltb_ge; Z.to_euclidean_division_equations; lia).
  replace (y / 10 / 10 / 10 <? 10) with true
    by (symmetry; apply Z.ltb_lt; Z.to_euclidean_division_equations; lia).
  replace (y / 10 / 10 / 10 mod 10) with (y / 1000)
    by (Z.to_euclidean_division_equations; lia).
  replace (y / 10 / 10) with (y / 100) by (Z.to_euclidean_division_equations; lia).
  reflexivity.
Qed.

(** The default timestamp has the pattern [YYYYMMDD_HHMMSS]. *)
Lemma strftime_pattern (t : struct_time) :
  calendar_time t -> timestamp_pattern (strftime t) = true.
Proof.
  intros (Hy & Hmon & Hday & Hh & Hm & Hs).
  unfold strftime. rewrite decimal_four_digits by assumption.
  unfold two_digits.
  cbv [String.append timestamp_pattern drop_digits].
  rewrite !is_digit_digit_char by (Z.to_euclidean_division_equations; lia).
  reflexivity.
Qed.

Lemma dumpdb_eval (host : Host) (config : Config) (w : World)
    (given : option string) (name : string) :
  dump_name host config given = Some name ->
  let path := os_path_join (get_database_dump_path config) name in
  let cmd := [get_pg_dump_binary config; "-O"; "-x"; "-F"; "c"]%string in
  let env := make_env host config in
  dumpdb host config given w
  = match open_fault host path with
    | Some oe =>
        (Err (TypeError "not all arguments converted during string formatting"),
         add_event (EvOpen path (Some oe)) w)
    | None =>
        let w1 := add_event (EvSpawn cmd env)
                    (add_event (EvOpen path None)
                       (set_files (<[path := []]> (files w)) w)) in
        match spawn host cmd env with
        | LaunchFailed oe =>
            (Err (TypeError "not all arguments converted during string formatting"), w1)
        | Exited rc out err =>
            (if nonempty err then
               Err (M2EEException
                      ("An error occured while creating database dump: "
                       +:+ repr (strip err)) None None)
             else Ok tt,
             set_files (<[path := out]> (files w1)) w1)
        end
    end.
Proof.
  intros Hname path cmd env.
  assert (Hres : forall k : string -> M unit,
             bind (match given with
                   | None =>
                       let* database := getitem (make_env host config) "PGDATABASE" in
                       ret (database +:+ "_" +:+ strftime (localtime host) +:+ ".backup")
                   | Some name0 => ret name0
                   end) k w = k name w).
  { intros k. unfold dump_name in Hname. destruct given as [n|].
    - injection Hname as ->. reflexivity.
    - unfold_monad. destruct (make_env host config !! "PGDATABASE"%string);
        [injection Hname as ->; reflexivity | discriminate]. }
  unfold dumpdb. rewrite Hres. fold path cmd env. unfold_monad.
  destruct (open_fault host path) as [oe|]; [reflexivity|].
  destruct (spawn host cmd env) as [oe|rc out err]; [reflexivity|].
  destruct (nonempty err); simpl; [now rewrite append_empty_r | reflexivity].
Qed.

Lemma opened_paths_app (tr1 tr2 : list event) :
  opened_paths (tr1 ++ tr2) = opened_paths tr1 ++ opened_paths tr2.
Proof. apply omap_app. Qed.

(** The one file [dumpdb] opens is the dump directory joined with the
    file name. *)
Lemma dumpdb_opened_path (host : Host) (config : Config) (w : World)
    (given : option string) (name : string) :
  dump_name host config given = Some name ->
  opened_paths (trace (dumpdb host config given w).2)
  = opened_paths (trace w) ++ [os_path_join (get_database_dump_path config) name].
Proof.
  intros Hname. rewrite (dumpdb_eval host config w given name Hname).
  destruct (open_fault host _) as [oe|]; simpl.
  - now rewrite opened_paths_app.
  - destruct (spawn host _ _) as [oe|rc out err]; simpl;
      now rewrite !opened_paths_app, app_nil_r.
Qed.

(** C7: without a name [dumpdb] writes to the dump directory joined with
    [<database>_<timestamp>.backup], the timestamp having the pattern
    [YYYYMMDD_HHMMSS]; with a name it writes to the dump directory
    joined with that name. *)
Theorem dumpdb_output_path (host : Host) (config : Config) (w : World)
    (database : string) :
  make_env host config !! "PGDATABASE"%string = Some database ->
  calendar_time (localtime host) ->
  opened_paths (trace (dumpdb host config None w).2)
  = opened_paths (trace w)
    ++ [os_path_join (get_database_dump_path config)
          (database +:+ "_" +:+ strftime (localtime host) +:+ ".backup")]
  /\ timestamp_pattern (strftime (localtime host)) = true
  /\ forall name,
       opened_paths (trace (dumpdb host config (Some name) w).2)
       = opened_paths (trace w) ++ [os_path_join (get_database_dump_path config) name].
Proof.
  intros Hdb Htime. split; [|split].
  - apply dumpdb_opened_path. unfold dump_name. now rewrite Hdb.
  - now apply strftime_pattern.
  - intros name. now apply dumpdb_opened_path.
Qed.

Lemma dumpdb_output_path_witness :
  opened_paths (trace (dumpdb (host_with (Exited 0 (b "PGDMP") [])) sample_config None
                         sample_world).2)
  = ["/var/dumps/appdb_20240309_070500.backup"%string]
  /\ opened_paths (trace (dumpdb (host_with (Exited 0 (b "PGDMP") [])) sample_config
                            (Some "nightly.backup"%string) sample_world).2)
     = ["/var/dumps/nightly.backup"%string].
Proof.
  assert (Htime : calendar_time (localtime (host_with (Exited 0 (b "PGDMP") []))))
    by (unfold calendar_time; simpl; lia).
  destruct (dumpdb_output_path (host_with (Exited 0 (b "PGDMP") [])) sample_config
              sample_world "appdb" eq_refl Htime) as (Hdefault & _ & Hnamed).
  split; [exact Hdefault | exact (Hnamed "nightly.backup"%string)].
Defined.

(** C9, as the code has it: [dumpdb] opens the output file before it
    launches [pg_dump], and nothing else comes between.  Once the file
    is open, a failing call (the binary cannot be launched, or it writes
    to its error stream) leaves a file at the computed path whose
    content is what the child wrote, empty when it did not start: the
    previous content is gone.  When the file cannot be opened the call
    fails too, nothing is launched and the file system is unchanged. *)
Theorem dumpdb_truncates_before_launch (host : Host) (config : Config) (w : World)
    (given : option string) (name : string) :
  dump_name host config given = Some name ->
  let path := os_path_join (get_database_dump_path config) name in
  let cmd := [get_pg_dump_binary config; "-O"; "-x"; "-F"; "c"]%string in
  let env := make_env host config in
  let r := (dumpdb host config given w).1 in
  let w' := (dumpdb host config given w).2 in
  (open_fault host path = None ->
     trace w' = trace w ++ [EvOpen path None; EvSpawn cmd env]
     /\ files w' = <[path := match spawn host cmd env with
                             | LaunchFailed _ => []
                             | Exited _ out _ => out
                             end]> (files w)
     /\ (forall oe, spawn host cmd env = LaunchFailed oe -> exists e, r = Err e)
     /\ (forall rc out err, spawn host cmd env = Exited rc out err -> err <> [] ->
           exists e, r = Err e))
  /\ (forall oe, open_fault host path = Some oe ->
        trace w' = trace w ++ [EvOpen path (Some oe)]
        /\ files w' = files w
        /\ exists e, r = Err e).
Proof.
  intros Hname path cmd env r w'. subst r w'.
  rewrite (dumpdb_eval host config w given name Hname). fold path cmd env.
  split.
  - intros ->. destruct (spawn host cmd env) as [oe|rc out err]; simpl;
      rewrite <- app_assoc, ?insert_insert_eq;
      repeat split; intros; try discriminate; eauto.
    match goal with
    | H : Exited _ _ _ = Exited _ _ _ |- _ => injection H as -> -> ->
    end.
    rewrite nonempty_true by assumption. eauto.
  - intros oe ->. simpl. repeat split; eauto.
Qed.

Lemma dumpdb_truncates_before_launch_witness :
  files (dumpdb (host_with (Exited 1 (b "PG") (b "pg_dump: aborted"))) sample_config
           (Some "old.backup"%string) sample_world).2
  = <["/var/dumps/old.backup"%string := b "PG"]> (files sample_world).
Proof.
  destruct (dumpdb_truncates_before_launch
              (host_with (Exited 1 (b "PG") (b "pg_dump: aborted"))) sample_config
              sample_world (Some "old.backup"%string) "old.backup" eq_refl)
    as (Hopen & _).
  destruct (Hopen eq_refl) as (_ & Hfiles & _).
  exact Hfiles.
Defined.

(** C9 as stated fails: a call that fails because the file cannot be
    opened leaves no file behind, and leaves an existing one as it
    was. *)
Lemma dumpdb_failed_open_keeps_files :
  let host := closed_host (OSErr 13 "Permission denied") (Exited 0 (b "PGDMP") []) in
  (exists e, (dumpdb host sample_config (Some "new.backup"%string) sample_world).1 = Err e)
  /\ files (dumpdb host sample_config (Some "new.backup"%string) sample_world).2
       !! "/var/dumps/new.backup"%string = None
  /\ (exists e, (dumpdb host sample_config (Some "old.backup"%string) sample_world).1 = Err e)
  /\ files (dumpdb host sample_config (Some "old.backup"%string) sample_world).2
       !! "/var/dumps/old.backup"%string = Some (b "previous").
Proof.
  intros host. repeat split; try (eexists; reflexivity); vm_compute; reflexivity.
Qed.

(** ** Wiping the database *)

Example emptydb_failing_drop :
  let '(r, w) := emptydb faulty_server sample_config sample_world in
  r = Err (M2EEException
             "Emptying database failed: cannot drop table users: permission denied"
             None (Some (PgErr "cannot drop table users: permission denied")))
  /\ durable w = sample_catalog
  /\ conns w = [{| view := sample_catalog; closed := true |}]
  /\ trace w = [EvConnect None; EvExecute SelectTables None;
                EvExecute (DropTable "public" "orders") None;
                EvExecute (DropTable "public" "users")
                  (Some (PgErr "cannot drop table users: permission denied"));
                EvClose 0].
Proof. vm_compute. repeat split. Qed.

Lemma with_txn_id (w : World) (h : nat) (v : catalog) :
  conns w !! h = Some {| view := v; closed := false |} ->
  with_txn w h v [] = w.
Proof.
  intros H. destruct w as [f d c t]. unfold with_txn. simpl in *.
  now rewrite list_insert_id, app_nil_r.
Qed.

Lemma with_txn_twice (w : World) (h : nat) (v v' : catalog) (evs evs' : list event) :
  with_txn (with_txn w h v evs) h v' evs' = with_txn w h v' (evs ++ evs').
Proof.
  unfold with_txn. simpl. now rewrite list_insert_insert_eq, app_assoc.
Qed.

Lemma with_txn_lookup (w : World) (h : nat) (v0 v : catalog) (evs : list event) :
  conns w !! h = Some {| view := v0; closed := false |} ->
  conns (with_txn w h v evs) !! h = Some {| view := v; closed := false |}.
Proof.
  intros H. simpl. apply list_lookup_insert_eq. eapply lookup_lt_Some; eauto.
Qed.

Lemma cur_execute_eval (host : Host) (h : nat) (s : stmt) (w : World) (v : catalog) :
  conns w !! h = Some {| view := v; closed := false |} ->
  cur_execute host h s w
  = match execute host s v with
    | inl pe => (Err (Psycopg2Error pe), with_txn w h v [EvExecute s (Some pe)])
    | inr (v', rows) => (Ok rows, with_txn w h v' [EvExecute s None])
    end.
Proof.
  intros H. unfold cur_execute. rewrite H.
  destruct (execute host s v) as [pe|[v' rows]].
  - f_equal. destruct w as [f d c t]. unfold with_txn, add_event. simpl in *.
    now rewrite list_insert_id.
  - reflexivity.
Qed.

Lemma drop_all_eval (host : Host) (h : nat) (drop : string -> string -> stmt)
    (rows : list (string * string)) :
  forall (w : World) (v : catalog),
    conns w !! h = Some {| view := v; closed := false |} ->
    drop_all host h drop rows w
    = let '(evs, v', e) := drops host drop rows v in
      (match e with
       | None => Ok tt
       | Some pe => Err (Psycopg2Error pe)
       end, with_txn w h v' evs).
Proof.
  induction rows as [|row rest IH]; intros w v H.
  - simpl. unfold ret. now rewrite with_txn_id.
  - unfold drop_all in *. simpl for_each. unfold bind at 1. unfold bind at 1.
    rewrite (cur_execute_eval host h _ w v H). simpl drops.
    destruct (execute host (drop row.1 row.2) v) as [pe|[v1 rows1]]; [reflexivity|].
    unfold ret at 1.
    rewrite (IH _ v1 (with_txn_lookup w h v v1 _ H)).
    destruct (drops host drop rest v1) as [[evs v2] e].
    now rewrite with_txn_twice.
Qed.

Lemma phase_eval (host : Host) (h : nat) (query : stmt)
    (drop : string -> string -> stmt) (k : M unit) (w : World) (v : catalog) :
  conns w !! h = Some {| view := v; closed := false |} ->
  (let* nsp_rel_tuples := cur_execute host h query in
   run drop_all host h drop nsp_rel_tuples in k) w
  = let '(evs, v', e) := phase host query drop v in
    match e with
    | Some pe => (Err (Psycopg2Error pe), with_txn w h v' evs)
    | None => k (with_txn w h v' evs)
    end.
Proof.
  intros H. unfold bind at 1. rewrite (cur_execute_eval host h query w v H).
  unfold phase. destruct (execute host query v) as [pe|[v1 rows]]; [reflexivity|].
  unfold bind.
  rewrite (drop_all_eval host h drop rows _ v1 (with_txn_lookup w h v v1 _ H)).
  destruct (drops host drop rows v1) as [[evs v2] e].
  rewrite with_txn_twice. now destruct e.
Qed.

Lemma conn_commit_eval (host : Host) (h : nat) (w : World) (v : catalog) :
  conns w !! h = Some {| view := v; closed := false |} ->
  conn_commit host h w
  = match commit_fault host v with
    | Some pe => (Err (Psycopg2Error pe), with_txn w h v [EvCommit (Some pe)])
    | None => (Ok tt, set_durable v (with_txn w h v [EvCommit None]))
    end.
Proof.
  intros H. unfold conn_commit. rewrite H.
  destruct (commit_fault host v) as [pe|]; f_equal;
    destruct w as [f d c t]; unfold with_txn, add_event, set_durable; simpl in *;
    now rewrite list_insert_id.
Qed.

(** The body of the [try] of [emptydb], run on an open connection. *)
Lemma wipe_body_eval (host : Host) (h : nat) (w : World) (v : catalog) :
  conns w !! h = Some {| view := v; closed := false |} ->
  (let* nsp_rel_tuples := cur_execute host h SelectTables in
   run drop_all host h DropTable nsp_rel_tuples in
   let* nsp_rel_tuples := cur_execute host h SelectSequences in
   run drop_all host h DropSequence nsp_rel_tuples in
   conn_commit host h) w
  = let '(evs, v', e) := wipe_script host v in
    match e with
    | Some pe => (Err (Psycopg2Error pe), with_txn w h v' evs)
    | None => (Ok tt, set_durable v' (with_txn w h v' evs))
    end.
Proof.
  intros H. rewrite (phase_eval host h SelectTables DropTable _ w v H).
  unfold wipe_script.
  destruct (phase host SelectTables DropTable v) as [[evs1 v1] [pe|]]; [reflexivity|].
  rewrite (phase_eval host h SelectSequences DropSequence _ _ v1
             (with_txn_lookup w h v v1 _ H)).
  destruct (phase host SelectSequences DropSequence v1) as [[evs2 v2] [pe|]];
    rewrite with_txn_twice; [reflexivity|].
  rewrite (conn_commit_eval host h _ v2 (with_txn_lookup w h v v2 _ H)).
  destruct (commit_fault host v2); now rewrite with_txn_twice, <- app_assoc.
Qed.

Lemma open_pg_connection_eval (host : Host) (config : Config) (w : World) :
  (established host config
   /\ open_pg_connection host config w
      = (Ok (length (conns w)),
         add_event (EvConnect None)
           (set_conns (conns w ++ [{| view := durable w; closed := false |}]) w)))
  \/ (exists e evs,
        open_pg_connection host config w
        = (Err e, {| files := files w; durable := durable w; conns := conns w;
                     trace := trace w ++ evs |})
        /\ forall ev, In ev evs -> exists pe, ev = EvConnect (Some pe)).
Proof.
  unfold open_pg_connection, _check_psycopg2, established. unfold_monad.
  assert (Hsame : forall e, (Err e : result nat, w)
            = (Err e, {| files := files w; durable := durable w; conns := conns w;
                         trace := trace w ++ [] |})).
  { intros e. destruct w. simpl. now rewrite app_nil_r. }
  destruct (psycopg2_present host); simpl;
    [|right; eexists _, []; split; [apply Hsame | intros ? []]].
  destruct (get_pg_environment config !! "PGDATABASE"%string) as [db|]; simpl;
    [|right; eexists _, []; split; [apply Hsame | intros ? []]].
  destruct (get_pg_environment config !! "PGUSER"%string) as [user|]; simpl;
    [|right; eexists _, []; split; [apply Hsame | intros ? []]].
  destruct (get_pg_environment config !! "PGPASSWORD"%string) as [pw|]; simpl;
    [|right; eexists _, []; split; [apply Hsame | intros ? []]].
  unfold psycopg2_connect.
  destruct (connect_fault host db user pw) as [pe|] eqn:E.
  - right. eexists _, [EvConnect (Some pe)]. split; [reflexivity|].
    intros ev [<-|[]]. eauto.
  - left. split; [|reflexivity]. exists db, user, pw. auto.
Qed.

Lemma emptydb_eval (host : Host) (config : Config) (w : World) :
  established host config ->
  emptydb host config w
  = let '(evs, v, e) := wipe_script host (durable w) in
    let d := match e with
             | None => v
             | Some _ => durable w
             end in
    (match e with
     | None => Ok tt
     | Some pe =>
         Err (M2EEException ("Emptying database failed: " +:+ pgerror pe)
                None (Some pe))
     end,
     {| files := files w; durable := d;
        conns := conns w ++ [{| view := d; closed := true |}];
        trace := trace w ++ EvConnect None :: evs ++ [EvClose (length (conns w))] |}).
Proof.
  intros Hest.
  destruct (open_pg_connection_eval host config w) as [(_ & Hopen)|(e & evs & Hopen & _)].
  2:{ exfalso. destruct Hest as (db & user & pw & Hp & Hdb & Huser & Hpw & Hc).
      revert Hopen. unfold open_pg_connection, _check_psycopg2. unfold_monad.
      rewrite Hp, Hdb, Huser, Hpw. simpl. unfold psycopg2_connect. rewrite Hc.
      discriminate. }
  unfold emptydb. unfold bind at 1. rewrite Hopen.
  unfold try_finally, try_except.
  set (w0 := add_event (EvConnect None)
               (set_conns (conns w ++ [{| view := durable w; closed := false |}]) w)).
  assert (Hlook : conns w0 !! length (conns w)
                  = Some {| view := durable w; closed := false |}).
  { simpl. apply list_lookup_middle. reflexivity. }
  rewrite (wipe_body_eval host (length (conns w)) w0 (durable w) Hlook).
  destruct (wipe_script host (durable w)) as [[evs v] [pe|]]; unfold raise;
    f_equal; unfold conn_close, with_txn, set_durable, add_event, set_conns; simpl;
    rewrite <- !app_assoc; simpl; f_equal;
    rewrite list_insert_insert_eq;
    rewrite <- (Nat.add_0_r (length (conns w))), insert_app_r; reflexivity.
Qed.

Lemma emptydb_no_connection (host : Host) (config : Config) (w : World) :
  ~ established host config ->
  exists e evs,
    emptydb host config w
    = (Err e, {| files := files w; durable := durable w; conns := conns w;
                 trace := trace w ++ evs |})
    /\ forall ev, In ev evs -> exists pe, ev = EvConnect (Some pe).
Proof.
  intros Hno.
  destruct (open_pg_connection_eval host config w) as [(Hest & _)|(e & evs & Hopen & Hevs)];
    [contradiction|].
  exists e, evs. split; [|exact Hevs].
  unfold emptydb. unfold bind at 1. now rewrite Hopen.
Qed.

Lemma established_dec (host : Host) (config : Config) :
  established host config \/ ~ established host config.
Proof.
  unfold established.
  destruct (psycopg2_present host) eqn:Hp;
    [|right; intros (? & ? & ? & H & _); discriminate].
  destruct (get_pg_environment config !! "PGDATABASE"%string) as [db|] eqn:Hdb;
    [|right; intros (? & ? & ? & _ & H & _); discriminate].
  destruct (get_pg_environment config !! "PGUSER"%string) as [user|] eqn:Huser;
    [|right; intros (? & ? & ? & _ & _ & H & _); discriminate].
  destruct (get_pg_environment config !! "PGPASSWORD"%string) as [pw|] eqn:Hpw;
    [|right; intros (? & ? & ? & _ & _ & _ & H & _); discriminate].
  destruct (connect_fault host db user pw) as [pe|] eqn:Hc.
  - right. intros (db' & user' & pw' & _ & H1 & H2 & H3 & H4). congruence.
  - left. exists db, user, pw. auto.
Qed.

(** *** The shape of the transaction's trace *)

Lemma drops_shape (host : Host) (drop : string -> string -> stmt)
    (rows : list (string * string)) :
  forall v : catalog,
    match drops host drop rows v with
    | (evs, _, None) =>
        Forall succeeded evs
        /\ statements evs = map (fun row => drop row.1 row.2) rows
    | (evs, _, Some pe) =>
        exists evs0 s, evs = evs0 ++ [EvExecute s (Some pe)]
                       /\ Forall succeeded evs0
                       /\ exists n r, s = drop n r
                          /\ statements evs0 ++ [s]
                             = map (fun row => drop row.1 row.2)
                                 (take (S (length evs0)) rows)
    end.
Proof.
  induction rows as [|row rest IH]; intros v; simpl.
  - split; [constructor | reflexivity].
  - destruct (execute host (drop row.1 row.2) v) as [pe|[v1 rows1]].
    + exists [], (drop row.1 row.2). repeat split; eauto.
    + specialize (IH v1). destruct (drops host drop rest v1) as [[evs v2] [pe|]].
      * destruct IH as (evs0 & s & -> & Hok & n & r & -> & Hst).
        exists (EvExecute (drop row.1 row.2) None :: evs0), (drop n r).
        split; [reflexivity|]. split; [constructor; [exact I | assumption]|].
        exists n, r. split; [reflexivity|].
        simpl. now rewrite Hst.
      * destruct IH as (Hok & Hst). split; [constructor; [exact I | assumption]|].
        simpl. now rewrite Hst.
Qed.

Lemma statements_app (tr1 tr2 : list event) :
  statements (tr1 ++ tr2) = statements tr1 ++ statements tr2.
Proof. apply omap_app. Qed.

Lemma statements_execute (s : stmt) (fault : option pg_error) (tr : list event) :
  statements (EvExecute s fault :: tr) = s :: statements tr.
Proof. reflexivity. Qed.

Lemma statements_drops (host : Host) (drop : string -> string -> stmt)
    (rows : list (string * string)) (p : stmt -> bool) :
  (forall n r, p (drop n r) = true) ->
  forall v, forallb p (statements (drops host drop rows v).1.1) = true.
Proof.
  intros Hp. induction rows as [|row rest IH]; intros v; simpl; [reflexivity|].
  destruct (execute host (drop row.1 row.2) v) as [pe|[v1 rows1]]; simpl.
  - now rewrite Hp.
  - specialize (IH v1). destruct (drops host drop rest v1) as [[evs v2] e].
    simpl in *. now rewrite Hp, IH.
Qed.

Lemma after_tables_app (dt rest : list stmt) :
  forallb is_drop_table dt = true ->
  after_tables (dt ++ rest) = after_tables rest.
Proof.
  induction dt as [|s dt IH]; simpl; [reflexivity|].
  destruct s; simpl; try discriminate. exact IH.
Qed.

(** What the transaction leaves in the trace: successful statements,
    then either the commit or the one event that failed. *)
Lemma wipe_script_shape (host : Host) (v0 : catalog) :
  match wipe_script host v0 with
  | (evs, _, None) =>
      exists evs0, evs = evs0 ++ [EvCommit None] /\ Forall succeeded evs0
  | (evs, _, Some pe) =>
      exists evs0 last,
        evs = evs0 ++ [last] /\ Forall succeeded evs0
        /\ (last = EvCommit (Some pe) \/ exists s, last = EvExecute s (Some pe))
  end.
Proof.
  assert (Hphase : forall query drop v,
             match phase host query drop v with
             | (evs, _, None) => Forall succeeded evs
             | (evs, _, Some pe) =>
                 exists evs0 s, evs = evs0 ++ [EvExecute s (Some pe)]
                                /\ Forall succeeded evs0
             end).
  { intros query drop v. unfold phase.
    destruct (execute host query v) as [pe|[v1 rows]].
    - exists [], query. split; [reflexivity | constructor].
    - pose proof (drops_shape host drop rows v1) as H.
      destruct (drops host drop rows v1) as [[evs v2] [pe|]].
      + destruct H as (evs0 & s & -> & Hok & _).
        exists (EvExecute query None :: evs0), s.
        split; [reflexivity | constructor; [exact I | assumption]].
      + destruct H as (Hok & _). constructor; [exact I | assumption]. }
  unfold wipe_script.
  pose proof (Hphase SelectTables DropTable v0) as H1.
  destruct (phase host SelectTables DropTable v0) as [[evs1 v1] [pe|]].
  - destruct H1 as (evs0 & s & -> & Hok). exists evs0, (EvExecute s (Some pe)). eauto.
  - pose proof (Hphase SelectSequences DropSequence v1) as H2.
    destruct (phase host SelectSequences DropSequence v1) as [[evs2 v2] [pe|]].
    + destruct H2 as (evs0 & s & -> & Hok).
      exists (evs1 ++ evs0), (EvExecute s (Some pe)).
      rewrite app_assoc. split; [reflexivity|]. split; [|eauto].
      apply Forall_app. auto.
    + destruct (commit_fault host v2) as [pe|].
      * exists (evs1 ++ evs2), (EvCommit (Some pe)).
        rewrite app_assoc. split; [reflexivity|]. split; [|auto].
        apply Forall_app. auto.
      * exists (evs1 ++ evs2). rewrite app_assoc. split; [reflexivity|].
        apply Forall_app. auto.
Qed.

Lemma wipe_script_two_phases (host : Host) (v0 : catalog) :
  two_phases (statements (wipe_script host v0).1.1) = true.
Proof.
  assert (Hphase : forall query drop v p,
             (forall n r, p (drop n r) = true) ->
             exists ds, statements (phase host query drop v).1.1 = query :: ds
                        /\ forallb p ds = true).
  { intros query drop v p Hp. unfold phase.
    destruct (execute host query v) as [pe|[v1 rows]]; simpl.
    - exists []. split; reflexivity.
    - pose proof (statements_drops host drop rows p Hp v1) as H.
      destruct (drops host drop rows v1) as [[evs v2] e]. simpl in *.
      exists (statements evs). split; [reflexivity | exact H]. }
  unfold wipe_script.
  destruct (Hphase SelectTables DropTable v0 is_drop_table ltac:(reflexivity))
    as (dt & Hdt & Hdt').
  destruct (phase host SelectTables DropTable v0) as [[evs1 v1] [pe|]]; simpl in *.
  - rewrite Hdt. simpl. rewrite <- (app_nil_r dt), after_tables_app by assumption.
    reflexivity.
  - destruct (Hphase SelectSequences DropSequence v1 is_drop_sequence ltac:(reflexivity))
      as (ds & Hds & Hds').
    destruct (phase host SelectSequences DropSequence v1) as [[evs2 v2] [pe|]];
      simpl in *; rewrite ?statements_app, Hdt, Hds; simpl;
      rewrite after_tables_app by assumption; simpl; rewrite ?app_nil_r; exact Hds'.
Qed.

(** A transaction that reaches its commit has dropped every row the two
    catalogue queries returned, tables first. *)
Lemma wipe_script_complete (host : Host) (v0 v : catalog) (evs : list event) :
  wipe_script host v0 = (evs, v, None) ->
  exists v1 tabs v2 seqs,
    execute host SelectTables v0 = inr (v1, tabs)
    /\ execute host SelectSequences (drops host DropTable tabs v1).1.2 = inr (v2, seqs)
    /\ statements evs
       = SelectTables :: map (fun row => DropTable row.1 row.2) tabs
         ++ SelectSequences :: map (fun row => DropSequence row.1 row.2) seqs.
Proof.
  unfold wipe_script, phase. intros H.
  destruct (execute host SelectTables v0) as [pe|[v1 tabs]]; [discriminate|].
  pose proof (drops_shape host DropTable tabs v1) as H1.
  destruct (drops host DropTable tabs v1) as [[evs1 v1'] [pe|]] eqn:Ed1; [discriminate|].
  destruct H1 as (_ & Hst1). simpl.
  destruct (execute host SelectSequences v1') as [pe|[v2 seqs]] eqn:Ee2; [discriminate|].
  pose proof (drops_shape host DropSequence seqs v2) as H2.
  destruct (drops host DropSequence seqs v2) as [[evs2 v2'] [pe|]]; [discriminate|].
  destruct H2 as (_ & Hst2).
  destruct (commit_fault host v2'); [discriminate|].
  injection H as <- _.
  exists v1, tabs, v2, seqs. split; [reflexivity|].
  split; [rewrite Ed1; exact Ee2|].
  rewrite statements_execute, statements_app, statements_execute, statements_app.
  rewrite Hst1, Hst2. simpl. now rewrite app_nil_r.
Qed.

Lemma in_transaction_trace (x last : event) (evs0 : list event) (h : nat) :
  In x (EvConnect None :: (evs0 ++ [last]) ++ [EvClose h]) ->
  x = EvConnect None \/ In x evs0 \/ x = last \/ x = EvClose h.
Proof.
  simpl. rewrite !in_app_iff. simpl. intuition auto.
Qed.

Lemma succeeded_in (evs : list event) (x : event) :
  Forall succeeded evs -> In x evs -> exists s, x = EvExecute s None.
Proof.
  intros Hall Hin. rewrite List.Forall_forall in Hall. specialize (Hall x Hin).
  destruct x as [| | |s [pe|]| |]; simpl in Hall; try contradiction. eauto.
Qed.

Lemma statements_connect_only (evs : list event) :
  (forall ev, In ev evs -> exists pe, ev = EvConnect (Some pe)) ->
  statements evs = [].
Proof.
  induction evs as [|ev evs IH]; intros H; [reflexivity|].
  destruct (H ev (or_introl eq_refl)) as (pe & ->). simpl.
  apply IH. intros ev' Hin. apply H. now right.
Qed.

(** A summary of every run of [emptydb]: either no connection was made
    and nothing changed, or one connection was made, the transaction
    ran, and the connection was closed. *)
Lemma emptydb_run (host : Host) (config : Config) (w : World) :
  let r := (emptydb host config w).1 in
  let w' := (emptydb host config w).2 in
  (exists e evs,
      r = Err e /\ durable w' = durable w /\ conns w' = conns w
      /\ new_events w w' = evs
      /\ (forall ev, In ev evs -> exists pe, ev = EvConnect (Some pe)))
  \/ (exists evs v e,
        wipe_script host (durable w) = (evs, v, e)
        /\ new_events w w' = EvConnect None :: evs ++ [EvClose (length (conns w))]
        /\ r = match e with
               | None => Ok tt
               | Some pe =>
                   Err (M2EEException ("Emptying database failed: " +:+ pgerror pe)
                          None (Some pe))
               end
        /\ durable w' = match e with
                        | None => v
                        | Some _ => durable w
                        end
        /\ conns w' = conns w ++ [{| view := durable w'; closed := true |}]).
Proof.
  intros r w'. subst r w'. unfold new_events.
  destruct (established_dec host config) as [Hest|Hno].
  - right. rewrite (emptydb_eval host config w Hest).
    destruct (wipe_script host (durable w)) as [[evs v] e].
    exists evs, v, e. simpl. rewrite drop_app_length. auto.
  - left. destruct (emptydb_no_connection host config w Hno) as (e & evs & -> & Hevs).
    exists e, evs. simpl. rewrite drop_app_length. auto.
Qed.

(** What the trace of a run tells: an error event means failure without
    commit, a commit event means a run without error. *)
Lemma emptydb_trace_facts (host : Host) (config : Config) (w : World) :
  let r := (emptydb host config w).1 in
  let w' := (emptydb host config w).2 in
  let new := new_events w w' in
  (forall pe, database_error new pe ->
     r = Err (M2EEException ("Emptying database failed: " +:+ pgerror pe)
                None (Some pe))
     /\ ~ committed new /\ durable w' = durable w)
  /\ (committed new ->
        r = Ok tt
        /\ (forall s fault, In (EvExecute s fault) new -> fault = None)
        /\ durable w' = (wipe_script host (durable w)).1.2
        /\ exists v1 tabs v2 seqs,
             execute host SelectTables (durable w) = inr (v1, tabs)
             /\ execute host SelectSequences (drops host DropTable tabs v1).1.2
                = inr (v2, seqs)
             /\ statements new
                = SelectTables :: map (fun row => DropTable row.1 row.2) tabs
                  ++ SelectSequences :: map (fun row => DropSequence row.1 row.2) seqs)
  /\ (r = Ok tt -> committed new)
  /\ (~ committed new -> durable w' = durable w)
  /\ two_phases (statements new) = true.
Proof.
  intros r w' new. subst r w' new.
  destruct (emptydb_run host config w)
    as [(e & evs & Hr & Hd & _ & Hnew & Hevs)
       |(evs & v & e & Hscript & Hnew & Hr & Hd & _)];
    rewrite Hnew, Hr, Hd; clear Hnew Hr Hd.
  - assert (Hnone : forall x, In x evs -> (forall pe, x <> EvConnect (Some pe)) -> False).
    { intros x Hin Hx. destruct (Hevs x Hin) as (pe & ->). now apply (Hx pe). }
    split; [|split; [|split; [|split]]].
    + intros pe [(s & H)|H]; exfalso; eapply Hnone; eauto; discriminate.
    + intros Hc. exfalso. eapply Hnone; eauto; discriminate.
    + discriminate.
    + reflexivity.
    + now rewrite statements_connect_only.
  - pose proof (wipe_script_shape host (durable w)) as Hshape.
    pose proof (wipe_script_two_phases host (durable w)) as Hphases.
    rewrite Hscript in Hshape, Hphases |- *. simpl in Hphases.
    assert (Hst : statements (EvConnect None :: evs ++ [EvClose (length (conns w))])
                  = statements evs).
    { change (EvConnect None :: evs ++ [EvClose (length (conns w))])
        with ([EvConnect None] ++ evs ++ [EvClose (length (conns w))]).
      rewrite !statements_app. simpl. now rewrite app_nil_r. }
    rewrite Hst. clear Hst. destruct e as [pe0|].
    + destruct Hshape as (evs0 & last & -> & Hok & Hlast).
      assert (Hnot : ~ committed
                       (EvConnect None :: (evs0 ++ [last]) ++ [EvClose (length (conns w))])).
      { intros Hc. apply in_transaction_trace in Hc as [Hc|[Hc|[Hc|Hc]]];
          try discriminate.
        - destruct (succeeded_in _ _ Hok Hc) as (s & Hs). discriminate.
        - destruct Hlast as [->|(s & ->)]; discriminate. }
      split; [|split; [|split; [|split]]].
      * intros pe Hpe. assert (pe = pe0); [|subst; auto].
        destruct Hpe as [(s & H)|H];
          apply in_transaction_trace in H as [H|[H|[H|H]]]; try discriminate;
          try (destruct (succeeded_in _ _ Hok H) as (s' & Hs'); discriminate);
          destruct Hlast as [->|(s' & ->)]; congruence.
      * intros Hc. contradiction.
      * discriminate.
      * reflexivity.
      * exact Hphases.
    + destruct Hshape as (evs0 & -> & Hok).
      assert (Hc : committed
                     (EvConnect None :: (evs0 ++ [EvCommit None])
                        ++ [EvClose (length (conns w))])).
      { unfold committed. simpl. right. rewrite !in_app_iff. simpl. auto. }
      split; [|split; [|split; [|split]]].
      * intros pe Hpe. exfalso.
        destruct Hpe as [(s & H)|H];
          apply in_transaction_trace in H as [H|[H|[H|H]]]; try discriminate;
          destruct (succeeded_in _ _ Hok H) as (s' & Hs'); discriminate.
      * intros _. split; [reflexivity|].
        split; [|split; [reflexivity | eapply wipe_script_complete; exact Hscript]].
        intros s fault H.
        apply in_transaction_trace in H as [H|[H|[H|H]]]; try discriminate.
        destruct (succeeded_in _ _ Hok H) as (s' & Hs'). congruence.
      * intros _. exact Hc.
      * intros Hn. contradiction.
      * exact Hphases.
Qed.

(** The run on an established connection, in full. *)
Lemma emptydb_established (host : Host) (config : Config) (w : World) :
  established host config ->
  new_events w (emptydb host config w).2
  = EvConnect None :: (wipe_script host (durable w)).1.1 ++ [EvClose (length (conns w))]
  /\ (emptydb host config w).1
     = match (wipe_script host (durable w)).2 with
       | None => Ok tt
       | Some pe =>
           Err (M2EEException ("Emptying database failed: " +:+ pgerror pe)
                  None (Some pe))
       end
  /\ durable (emptydb host config w).2
     = match (wipe_script host (durable w)).2 with
       | None => (wipe_script host (durable w)).1.2
       | Some _ => durable w
       end.
Proof.
  intros Hest. rewrite (emptydb_eval host config w Hest). unfold new_events.
  destruct (wipe_script host (durable w)) as [[evs v] e]. simpl.
  rewrite drop_app_length. auto.
Qed.

(** The error that ends the transaction is in its trace, and so is the
    commit of a transaction that nothing ended. *)
Lemma wipe_script_outcome_in_trace (host : Host) (v0 : catalog) (h : nat) :
  let script := wipe_script host v0 in
  let tr := EvConnect None :: script.1.1 ++ [EvClose h] in
  (forall pe, script.2 = Some pe -> database_error tr pe)
  /\ (script.2 = None -> committed tr).
Proof.
  intros script tr. subst script tr.
  pose proof (wipe_script_shape host v0) as Hshape.
  destruct (wipe_script host v0) as [[evs v] e]. simpl. split.
  - intros pe ->. destruct Hshape as (evs0 & last & -> & _ & [->|(s & ->)]).
    + right. simpl. right. rewrite !in_app_iff. simpl. auto.
    + left. exists s. simpl. right. rewrite !in_app_iff. simpl. auto.
  - intros ->. destruct Hshape as (evs0 & -> & _).
    unfold committed. simpl. right. rewrite !in_app_iff. simpl. auto.
Qed.

Lemma first_failure_script (host : Host) (d : catalog) (pe : pg_error) :
  first_failure host d pe -> (wipe_script host d).2 = Some pe.
Proof.
  unfold first_failure, wipe_script, phase.
  intros [H|[(v1 & tabs & evs1 & v1' & H1 & H2)
            |[(v1 & tabs & evs1 & v1' & H1 & H2 & H3)
             |[(v1 & tabs & evs1 & v1' & v2 & seqs & evs2 & v2' & H1 & H2 & H3 & H4)
              |(v1 & tabs & evs1 & v1' & v2 & seqs & evs2 & v2' & H1 & H2 & H3 & H4 & H5)]]]].
  - now rewrite H.
  - now rewrite H1, H2.
  - rewrite H1, H2. simpl. now rewrite H3.
  - rewrite H1, H2. simpl. now rewrite H3, H4.
  - rewrite H1, H2. simpl. rewrite H3, H4. simpl. now rewrite H5.
Qed.

Lemma clean_run_script (host : Host) (d v1 v1' v2 v2' : catalog)
    (tabs seqs : list (string * string)) (evs1 evs2 : list event) :
  execute host SelectTables d = inr (v1, tabs) ->
  drops host DropTable tabs v1 = (evs1, v1', None) ->
  execute host SelectSequences v1' = inr (v2, seqs) ->
  drops host DropSequence seqs v2 = (evs2, v2', None) ->
  commit_fault host v2' = None ->
  (wipe_script host d).2 = None /\ (wipe_script host d).1.2 = v2'.
Proof.
  intros H1 H2 H3 H4 H5. unfold wipe_script, phase.
  rewrite H1, H2. simpl. rewrite H3, H4. simpl. rewrite H5. auto.
Qed.

(** C2: [emptydb] runs the table phase and then the sequence phase on
    one connection and commits last.  A database error in a statement
    or in the commit makes the call fail with an [M2EEException] that
    carries the error as its cause; then nothing was committed and the
    committed catalogue is what it was.  A commit happens only in a run
    in which every statement succeeded, and exactly the runs that
    return normally have committed; the committed catalogue is then the
    one the transaction produced, after the drop of every table and then
    of every sequence that the catalogue queries returned.

    On an established connection the run is not idle.  When the table
    query, every drop of a table it listed, the sequence query (run on
    what the table phase left), every drop of a sequence it listed and
    the commit all succeed, [emptydb] executes exactly these statements
    in this order, commits and returns normally, and the committed
    catalogue is the one left by the last drop.  When one of them fails,
    the first such failure is the error the call fails with, and the
    committed catalogue is untouched.  (The relations a query lists are
    the server's answer to the fixed text [sql_text] gives for it.) *)
Theorem emptydb_atomic (host : Host) (config : Config) (w : World) :
  let r := (emptydb host config w).1 in
  let w' := (emptydb host config w).2 in
  let new := new_events w w' in
  (forall pe, database_error new pe ->
     r = Err (M2EEException ("Emptying database failed: " +:+ pgerror pe)
                None (Some pe))
     /\ ~ committed new /\ durable w' = durable w)
  /\ (committed new ->
        r = Ok tt
        /\ (forall s fault, In (EvExecute s fault) new -> fault = None)
        /\ durable w' = (wipe_script host (durable w)).1.2
        /\ exists v1 tabs v2 seqs,
             execute host SelectTables (durable w) = inr (v1, tabs)
             /\ execute host SelectSequences (drops host DropTable tabs v1).1.2
                = inr (v2, seqs)
             /\ statements new
                = SelectTables :: map (fun row => DropTable row.1 row.2) tabs
                  ++ SelectSequences :: map (fun row => DropSequence row.1 row.2) seqs)
  /\ (r = Ok tt -> committed new)
  /\ (~ committed new -> durable w' = durable w)
  /\ two_phases (statements new) = true
  /\ (established host config ->
        new = EvConnect None :: (wipe_script host (durable w)).1.1
                ++ [EvClose (length (conns w))]
        /\ r = match (wipe_script host (durable w)).2 with
               | None => Ok tt
               | Some pe =>
                   Err (M2EEException ("Emptying database failed: " +:+ pgerror pe)
                          None (Some pe))
               end)
  /\ (established host config ->
        forall v1 tabs evs1 v1' v2 seqs evs2 v2',
          execute host SelectTables (durable w) = inr (v1, tabs) ->
          drops host DropTable tabs v1 = (evs1, v1', None) ->
          execute host SelectSequences v1' = inr (v2, seqs) ->
          drops host DropSequence seqs v2 = (evs2, v2', None) ->
          commit_fault host v2' = None ->
          r = Ok tt /\ committed new /\ durable w' = v2'
          /\ statements new
             = SelectTables :: map (fun row => DropTable row.1 row.2) tabs
               ++ SelectSequences :: map (fun row => DropSequence row.1 row.2) seqs)
  /\ (established host config ->
        forall pe, first_failure host (durable w) pe ->
          r = Err (M2EEException ("Emptying database failed: " +:+ pgerror pe)
                     None (Some pe))
          /\ database_error new pe /\ ~ committed new /\ durable w' = durable w).
Proof.
  intros r w' new. subst r w' new.
  destruct (emptydb_trace_facts host config w) as (Herr & Hcommit & Hok & Hnot & Hphases).
  split; [exact Herr|]. split; [exact Hcommit|]. split; [exact Hok|].
  split; [exact Hnot|]. split; [exact Hphases|].
  split; [|split].
  - intros Hest. destruct (emptydb_established host config w Hest) as (Hnew & Hr & _).
    auto.
  - intros Hest v1 tabs evs1 v1' v2 seqs evs2 v2' H1 H2 H3 H4 H5.
    destruct (emptydb_established host config w Hest) as (Hnew & Hr & Hd).
    destruct (clean_run_script host (durable w) v1 v1' v2 v2' tabs seqs evs1 evs2
                H1 H2 H3 H4 H5) as (He & Hv).
    assert (Hc : committed (new_events w (emptydb host config w).2)).
    { rewrite Hnew.
      apply (proj2 (wipe_script_outcome_in_trace host (durable w) (length (conns w)))).
      exact He. }
    rewrite He in Hr, Hd. rewrite Hv in Hd.
    split; [exact Hr|]. split; [exact Hc|]. split; [exact Hd|].
    destruct (Hcommit Hc) as (_ & _ & _ & u1 & utabs & u2 & useqs & G1 & G2 & Hst).
    rewrite H1 in G1. injection G1 as <- <-.
    rewrite H2 in G2. simpl in G2. rewrite H3 in G2. injection G2 as <- <-.
    exact Hst.
  - intros Hest pe Hfail.
    destruct (emptydb_established host config w Hest) as (Hnew & Hr & _).
    pose proof (first_failure_script host (durable w) pe Hfail) as He.
    assert (Hdb : database_error (new_events w (emptydb host config w).2) pe).
    { rewrite Hnew.
      apply (proj1 (wipe_script_outcome_in_trace host (durable w) (length (conns w)))).
      exact He. }
    destruct (Herr pe Hdb) as (Hr' & Hnc & Hd'). auto.
Qed.

Lemma emptydb_atomic_witness :
  (emptydb faulty_server sample_config sample_world).1
  = Err (M2EEException
           "Emptying database failed: cannot drop table users: permission denied"
           None (Some (PgErr "cannot drop table users: permission denied")))
  /\ durable (emptydb faulty_server sample_config sample_world).2 = sample_catalog
  /\ (emptydb (host_with (Exited 0 [] [])) sample_config sample_world).1 = Ok tt
  /\ durable (emptydb (host_with (Exited 0 [] [])) sample_config sample_world).2
     = {| tables := []; sequences := [] |}.
Proof.
  destruct (emptydb_atomic faulty_server sample_config sample_world) as (Herr & _).
  destruct (Herr (PgErr "cannot drop table users: permission denied"))
    as (Hr & _ & Hd).
  - left. exists (DropTable "public" "users"). vm_compute. auto 10.
  - split; [exact Hr|]. split; [exact Hd|].
    destruct (emptydb_atomic (host_with (Exited 0 [] [])) sample_config sample_world)
      as (_ & _ & _ & _ & _ & _ & Hclean & _).
    assert (Hest : established (host_with (Exited 0 [] [])) sample_config).
    { exists "appdb"%string, "app"%string, "secret"%string. repeat split. }
    destruct (Hclean Hest sample_catalog (tables sample_catalog)
                (drops (host_with (Exited 0 [] [])) DropTable
                   (tables sample_catalog) sample_catalog).1.1
                {| tables := []; sequences := sequences sample_catalog |}
                {| tables := []; sequences := sequences sample_catalog |}
                (sequences sample_catalog)
                (drops (host_with (Exited 0 [] [])) DropSequence
                   (sequences sample_catalog)
                   {| tables := []; sequences := sequences sample_catalog |}).1.1
                {| tables := []; sequences := [] |}
                eq_refl eq_refl eq_refl eq_refl eq_refl)
      as (Hok & _ & Hdur & _).
    split; [exact Hok | exact Hdur].
Defined.

(** C8: whatever [emptydb] returns or raises, a connection it opened is
    closed when it is done.  Either no connection was made (the call
    then fails and the connections are what they were), or exactly one
    was made, it is closed in the final world, and the close is the last
    event of the call. *)
Theorem emptydb_closes_connection (host : Host) (config : Config) (w : World) :
  let r := (emptydb host config w).1 in
  let w' := (emptydb host config w).2 in
  let new := new_events w w' in
  (~ In (EvConnect None) new /\ conns w' = conns w /\ exists e, r = Err e)
  \/ (exists c evs,
        conns w' = conns w ++ [c] /\ closed c = true
        /\ new = EvConnect None :: evs ++ [EvClose (length (conns w))]
        /\ ~ In (EvConnect None) evs).
Proof.
  intros r w' new. subst r w' new.
  destruct (emptydb_run host config w)
    as [(e & evs & Hr & _ & Hc & Hnew & Hevs)
       |(evs & v & e & Hscript & Hnew & _ & _ & Hc)].
  - left. rewrite Hnew. split; [|split; [exact Hc | eauto]].
    intros Hin. destruct (Hevs _ Hin) as (pe & Hpe). discriminate.
  - right. eexists _, evs. split; [exact Hc|]. split; [reflexivity|].
    split; [exact Hnew|].
    pose proof (wipe_script_shape host (durable w)) as Hshape.
    rewrite Hscript in Hshape. intros Hin.
    destruct e as [pe|].
    + destruct Hshape as (evs0 & last & -> & Hok & Hlast).
      apply in_app_iff in Hin as [Hin|[Hin|[]]].
      * destruct (succeeded_in _ _ Hok Hin) as (s & Hs). discriminate.
      * destruct Hlast as [->|(s & ->)]; discriminate.
    + destruct Hshape as (evs0 & -> & Hok).
      apply in_app_iff in Hin as [Hin|[Hin|[]]]; [|discriminate].
      destruct (succeeded_in _ _ Hok Hin) as (s & Hs). discriminate.
Qed.

Example emptydb_closes_on_both_paths :
  conns (emptydb (host_with (Exited 0 [] [])) sample_config sample_world).2
  = [{| view := {| tables := []; sequences := [] |}; closed := true |}]
  /\ conns (emptydb faulty_server sample_config sample_world).2
     = [{| view := sample_catalog; closed := true |}].
Proof. split; vm_compute; reflexivity. Qed.

(** * Further properties of the operations *)

(** ** Connecting *)

(** X1: without the psycopg2 driver [emptydb] fails at once with the
    [M2EEException] of [_check_psycopg2]; no connection is attempted and
    the world is left as it was. *)
Theorem emptydb_requires_driver (host : Host) (config : Config) (w : World) :
  psycopg2_present host = false ->
  emptydb host config w
  = (Err (M2EEException
            ("Failed to import psycopg2. This module is needed by m2ee for "
             +:+ "PostgreSQL related functionality. "
             +:+ "Please provide it on the python library path.")
            None None), w).
Proof.
  intros H. unfold emptydb, open_pg_connection, _check_psycopg2. unfold_monad.
  rewrite H. reflexivity.
Qed.

Lemma emptydb_requires_driver_witness :
  (emptydb driverless_host sample_config sample_world).2 = sample_world.
Proof.
  rewrite (emptydb_requires_driver driverless_host sample_config sample_world eq_refl).
  reflexivity.
Defined.

(** X2: [open_pg_connection] takes the credentials from the
    configuration's own variables, never from the process environment:
    when one of [PGDATABASE], [PGUSER], [PGPASSWORD] is missing there,
    [emptydb] raises [KeyError] for the first missing one, in that
    order, before any connection attempt. *)
Theorem emptydb_credentials_from_config (host : Host) (config : Config) (w : World) :
  psycopg2_present host = true ->
  (get_pg_environment config !! "PGDATABASE"%string = None ->
   emptydb host config w = (Err (KeyError "PGDATABASE"), w))
  /\ (forall database,
        get_pg_environment config !! "PGDATABASE"%string = Some database ->
        get_pg_environment config !! "PGUSER"%string = None ->
        emptydb host config w = (Err (KeyError "PGUSER"), w))
  /\ (forall database user,
        get_pg_environment config !! "PGDATABASE"%string = Some database ->
        get_pg_environment config !! "PGUSER"%string = Some user ->
        get_pg_environment config !! "PGPASSWORD"%string = None ->
        emptydb host config w = (Err (KeyError "PGPASSWORD"), w)).
Proof.
  intros Hp. unfold emptydb, open_pg_connection, _check_psycopg2. unfold_monad.
  rewrite Hp. split; [|split].
  - intros ->. reflexivity.
  - intros db -> ->. reflexivity.
  - intros db user -> -> ->. reflexivity.
Qed.

Lemma emptydb_credentials_from_config_witness :
  emptydb (host_with (Exited 0 [] [])) bare_config sample_world
  = (Err (KeyError "PGDATABASE"), sample_world).
Proof.
  apply (proj1 (emptydb_credentials_from_config (host_with (Exited 0 [] []))
                  bare_config sample_world eq_refl)).
  reflexivity.
Defined.

(** X3: when the server refuses the connection, [emptydb] fails with
    the [M2EEException] of [open_pg_connection] (``Opening database
    connection failed'') carrying the driver's error as cause; nothing
    is executed, committed or closed. *)
Theorem emptydb_connect_refused (host : Host) (config : Config) (w : World)
    (database user password : string) (pe : pg_error) :
  psycopg2_present host = true ->
  get_pg_environment config !! "PGDATABASE"%string = Some database ->
  get_pg_environment config !! "PGUSER"%string = Some user ->
  get_pg_environment config !! "PGPASSWORD"%string = Some password ->
  connect_fault host database user password = Some pe ->
  emptydb host config w
  = (Err (M2EEException ("Opening database connection failed: " +:+ pgerror pe)
            None (Some pe)),
     add_event (EvConnect (Some pe)) w).
Proof.
  intros Hp Hdb Huser Hpw Hc.
  unfold emptydb, open_pg_connection, _check_psycopg2, psycopg2_connect. unfold_monad.
  rewrite Hp, Hdb, Huser, Hpw, Hc. reflexivity.
Qed.

Lemma emptydb_connect_refused_witness :
  (emptydb refusing_host sample_config sample_world).1
  = Err (M2EEException
           "Opening database connection failed: FATAL: password authentication failed"
           None (Some (PgErr "FATAL: password authentication failed"))).
Proof.
  rewrite (emptydb_connect_refused refusing_host sample_config sample_world
             "appdb" "app" "secret" (PgErr "FATAL: password authentication failed")
             eq_refl eq_refl eq_refl eq_refl eq_refl).
  reflexivity.
Defined.

(** ** What the wipe drops *)

Lemma drops_statements_in (host : Host) (drop : string -> string -> stmt)
    (rows : list (string * string)) :
  forall (v : catalog) (s : stmt),
    In s (statements (drops host drop rows v).1.1) ->
    exists row, In row rows /\ s = drop row.1 row.2.
Proof.
  induction rows as [|row rest IH]; intros v s Hin; simpl in Hin; [contradiction|].
  destruct (execute host (drop row.1 row.2) v) as [pe|[v1 rows1]]; simpl in Hin.
  - destruct Hin as [<-|[]]. exists row. split; [now left | reflexivity].
  - specialize (IH v1 s). destruct (drops host drop rest v1) as [[evs v2] e].
    simpl in *. destruct Hin as [<-|Hin].
    + exists row. split; [now left | reflexivity].
    + destruct (IH Hin) as (row' & Hrow & ->). exists row'. split; [now right | reflexivity].
Qed.

Lemma phase_statements_in (host : Host) (query : stmt)
    (drop : string -> string -> stmt) (v : catalog) (s : stmt) :
  In s (statements (phase host query drop v).1.1) ->
  s = query
  \/ exists v' rows row,
       execute host query v = inr (v', rows) /\ In row rows /\ s = drop row.1 row.2.
Proof.
  unfold phase. destruct (execute host query v) as [pe|[v1 rows]]; simpl.
  - intros [<-|[]]. now left.
  - pose proof (drops_statements_in host drop rows v1 s) as H.
    destruct (drops host drop rows v1) as [[evs v2] e]. simpl in *.
    intros [<-|Hin]; [now left|].
    destruct (H Hin) as (row & Hrow & ->). right. exists v1, rows, row. auto.
Qed.

Lemma wipe_script_statements_in (host : Host) (v0 : catalog) (s : stmt) :
  In s (statements (wipe_script host v0).1.1) ->
  s = SelectTables \/ s = SelectSequences
  \/ (exists v' rows row,
        execute host SelectTables v0 = inr (v', rows) /\ In row rows
        /\ s = DropTable row.1 row.2)
  \/ (exists v v' rows row,
        execute host SelectSequences v = inr (v', rows) /\ In row rows
        /\ s = DropSequence row.1 row.2).
Proof.
  unfold wipe_script.
  pose proof (phase_statements_in host SelectTables DropTable v0 s) as H1.
  destruct (phase host SelectTables DropTable v0) as [[evs1 v1] e1]. simpl in H1.
  assert (Hfirst : In s (statements evs1) ->
            s = SelectTables
            \/ s = SelectSequences
            \/ (exists v' rows row,
                  execute host SelectTables v0 = inr (v', rows) /\ In row rows
                  /\ s = DropTable row.1 row.2)
            \/ (exists v v' rows row,
                  execute host SelectSequences v = inr (v', rows) /\ In row rows
                  /\ s = DropSequence row.1 row.2)).
  { intros Hin. destruct (H1 Hin) as [->|H]; auto. }
  destruct e1 as [pe|]; simpl; [exact Hfirst|].
  pose proof (phase_statements_in host SelectSequences DropSequence v1 s) as H2.
  destruct (phase host SelectSequences DropSequence v1) as [[evs2 v2] e2]. simpl in H2.
  assert (Hsecond : In s (statements evs2) ->
            s = SelectTables
            \/ s = SelectSequences
            \/ (exists v' rows row,
                  execute host SelectTables v0 = inr (v', rows) /\ In row rows
                  /\ s = DropTable row.1 row.2)
            \/ (exists v v' rows row,
                  execute host SelectSequences v = inr (v', rows) /\ In row rows
                  /\ s = DropSequence row.1 row.2)).
  { intros Hin. destruct (H2 Hin) as [->|(v' & rows & row & He & Hrow & ->)]; auto.
    right. right. right. exists v1, v', rows, row. auto. }
  destruct e2 as [pe|]; simpl; rewrite ?statements_app, ?in_app_iff; simpl;
    intros H; repeat (destruct H as [H|H]); auto; contradiction.
Qed.

Lemma wipe_script_sequence_drops (host : Host) (v0 : catalog) (nsp rel : string) :
  In (DropSequence nsp rel) (statements (wipe_script host v0).1.1) ->
  exists v1 tabs v2 seqs,
    execute host SelectTables v0 = inr (v1, tabs)
    /\ execute host SelectSequences (drops host DropTable tabs v1).1.2 = inr (v2, seqs)
    /\ In (nsp, rel) seqs.
Proof.
  unfold wipe_script, phase.
  destruct (execute host SelectTables v0) as [pe|[v1 tabs]]; simpl.
  - intros [H|[]]. discriminate H.
  - pose proof (drops_statements_in host DropTable tabs v1 (DropSequence nsp rel)) as Htab.
    destruct (drops host DropTable tabs v1) as [[evs1 v1'] e1] eqn:Ed1. simpl in Htab.
    assert (Hno : ~ In (DropSequence nsp rel) (statements evs1)).
    { intros Hin. destruct (Htab Hin) as (row & _ & Hrow). discriminate Hrow. }
    destruct e1 as [pe|]; simpl.
    + intros [H|H]; [discriminate H | contradiction].
    + destruct (execute host SelectSequences v1') as [pe|[v2 seqs]] eqn:Ee2; simpl.
      * rewrite statements_app, in_app_iff. simpl.
        intros [H|[H|[H|[]]]]; [discriminate H | contradiction | discriminate H].
      * pose proof (drops_statements_in host DropSequence seqs v2 (DropSequence nsp rel))
          as Hseq.
        destruct (drops host DropSequence seqs v2) as [[evs2 v2'] e2]. simpl in Hseq.
        assert (Hyes : In (DropSequence nsp rel) (statements evs2) -> In (nsp, rel) seqs).
        { intros Hin. destruct (Hseq Hin) as ([n r] & Hrow & Heq).
          simpl in Heq. injection Heq as -> ->. exact Hrow. }
        assert (Hgoal : In (nsp, rel) seqs ->
                  exists u1 utabs u2 useqs,
                    (inr (v1, tabs) : pg_error + catalog * list (string * string))
                    = inr (u1, utabs)
                    /\ execute host SelectSequences (drops host DropTable utabs u1).1.2
                       = inr (u2, useqs)
                    /\ In (nsp, rel) useqs).
        { intros Hin. exists v1, tabs, v2, seqs. split; [reflexivity|].
          rewrite Ed1. simpl. auto. }
        destruct e2 as [pe|]; simpl; rewrite ?statements_app, ?in_app_iff; simpl;
          rewrite ?statements_app, ?in_app_iff; simpl;
          intros H; repeat (destruct H as [H|H]); try discriminate H;
          try contradiction; auto.
Qed.

(** X4: [emptydb] drops nothing it was not told about: every table it
    drops was a row of the table query run on the committed catalogue,
    and every sequence it drops was a row of the sequence query run on
    the catalogue that the table phase of this very run left, also in
    the runs that fail half way. *)
Theorem emptydb_drops_only_listed (host : Host) (config : Config) (w : World)
    (nsp rel : string) :
  let new := new_events w (emptydb host config w).2 in
  (In (DropTable nsp rel) (statements new) ->
   exists v rows, execute host SelectTables (durable w) = inr (v, rows)
                  /\ In (nsp, rel) rows)
  /\ (In (DropSequence nsp rel) (statements new) ->
      exists v1 tabs v2 seqs,
        execute host SelectTables (durable w) = inr (v1, tabs)
        /\ execute host SelectSequences (drops host DropTable tabs v1).1.2
           = inr (v2, seqs)
        /\ In (nsp, rel) seqs).
Proof.
  intros new. subst new.
  assert (Hin : forall s, In s (statements (new_events w (emptydb host config w).2)) ->
                          In s (statements (wipe_script host (durable w)).1.1)).
  { intros s. destruct (emptydb_run host config w)
      as [(e & evs & _ & _ & _ & -> & Hevs)|(evs & v & e & Hscript & -> & _)].
    - rewrite statements_connect_only by assumption. intros [].
    - rewrite Hscript. simpl.
      change (EvConnect None :: evs ++ [EvClose (length (conns w))])
        with ([EvConnect None] ++ evs ++ [EvClose (length (conns w))]).
      rewrite !statements_app. simpl. now rewrite app_nil_r. }
  split; intros H; apply Hin in H.
  - apply wipe_script_statements_in in H.
    destruct H as [H|[H|[(v' & rows & [n r] & He & Hrow & H)
                        |(v & v' & rows & [n r] & He & Hrow & H)]]];
      try discriminate; simpl in H; injection H as -> ->; eauto.
  - now apply wipe_script_sequence_drops.
Qed.

Lemma emptydb_drops_only_listed_witness :
  (exists v rows,
      execute faulty_server SelectTables (durable sample_world) = inr (v, rows)
      /\ In ("public", "orders")%string rows)
  /\ (exists v1 tabs v2 seqs,
        execute (host_with (Exited 0 [] [])) SelectTables (durable sample_world)
        = inr (v1, tabs)
        /\ execute (host_with (Exited 0 [] [])) SelectSequences
             (drops (host_with (Exited 0 [] [])) DropTable tabs v1).1.2
           = inr (v2, seqs)
        /\ In ("public", "orders_id_seq")%string seqs).
Proof.
  split.
  - apply (proj1 (emptydb_drops_only_listed faulty_server sample_config sample_world
                    "public" "orders")).
    vm_compute. auto.
  - apply (proj2 (emptydb_drops_only_listed (host_with (Exited 0 [] [])) sample_config
                    sample_world "public" "orders_id_seq")).
    vm_compute. auto 10.
Defined.

(** X5: on a schema in which both catalogue queries return no row,
    [emptydb] executes the two queries and nothing else, commits, closes
    the connection and returns normally. *)
Theorem emptydb_nothing_to_drop (host : Host) (config : Config) (w : World)
    (v1 v2 : catalog) :
  established host config ->
  execute host SelectTables (durable w) = inr (v1, []) ->
  execute host SelectSequences v1 = inr (v2, []) ->
  commit_fault host v2 = None ->
  (emptydb host config w).1 = Ok tt
  /\ new_events w (emptydb host config w).2
     = [EvConnect None; EvExecute SelectTables None; EvExecute SelectSequences None;
        EvCommit None; EvClose (length (conns w))]
  /\ durable (emptydb host config w).2 = v2.
Proof.
  intros Hest H1 H2 Hc. rewrite (emptydb_eval host config w Hest).
  unfold wipe_script, phase. rewrite H1. simpl. rewrite H2. simpl. rewrite Hc.
  unfold new_events. simpl. rewrite drop_app_length. auto.
Qed.

Lemma emptydb_nothing_to_drop_witness :
  (emptydb (host_with (Exited 0 [] [])) sample_config empty_world).1 = Ok tt.
Proof.
  refine (proj1 (emptydb_nothing_to_drop (host_with (Exited 0 [] [])) sample_config
                   empty_world {| tables := []; sequences := [] |}
                   {| tables := []; sequences := [] |} _ eq_refl eq_refl eq_refl)).
  exists "appdb"%string, "app"%string, "secret"%string. repeat split.
Defined.

(** ** Restoring and dumping *)

(** X6: [restoredb] launches [pg_restore] once, for the database of the
    merged environment, restricted to the schema [public], on the dump
    directory joined with the dump name.  It returns normally exactly
    when the error stream is empty: the exit status is not looked at.
    A launch failure surfaces as [TypeError], because the handler
    formats the eight-element command with one [%s].  Without
    [PGDATABASE] the call raises [KeyError] and launches nothing. *)
Theorem restoredb_outcome (host : Host) (config : Config) (w : World)
    (dump_name : string) :
  (forall database,
     make_env host config !! "PGDATABASE"%string = Some database ->
     let cmd := [get_pg_restore_binary config; "-d"; database; "-O"; "-n"; "public";
                 "-x"; os_path_join (get_database_dump_path config) dump_name]%string in
     restoredb host config dump_name w
     = (match spawn host cmd (make_env host config) with
        | LaunchFailed _ =>
            Err (TypeError "not all arguments converted during string formatting")
        | Exited _ _ err =>
            if nonempty err then
              Err (M2EEException
                     ("An error occured while doing database restore: "
                      +:+ repr (strip err) +:+ " ") None None)
            else Ok tt
        end,
        add_event (EvSpawn cmd (make_env host config)) w))
  /\ (make_env host config !! "PGDATABASE"%string = None ->
      restoredb host config dump_name w = (Err (KeyError "PGDATABASE"), w)).
Proof.
  split.
  - intros db Hdb cmd. unfold restoredb. unfold_monad. rewrite Hdb. fold cmd.
    destruct (spawn host cmd (make_env host config)) as [oe|rc out err]; [reflexivity|].
    destruct (nonempty err); reflexivity.
  - intros Hdb. unfold restoredb. unfold_monad. now rewrite Hdb.
Qed.

Lemma restoredb_outcome_witness :
  (restoredb (host_with (Exited 1 [] [])) sample_config "nightly.backup" sample_world).1
  = Ok tt.
Proof.
  rewrite (proj1 (restoredb_outcome (host_with (Exited 1 [] [])) sample_config
                    sample_world "nightly.backup") "appdb"%string eq_refl).
  reflexivity.
Defined.

(** X7: [dumpdb] returns normally exactly when the output file could be
    opened and [pg_dump] ran and wrote nothing to its error stream,
    whatever its exit status; the file then holds what [pg_dump] wrote
    to its output. *)
Theorem dumpdb_success (host : Host) (config : Config) (w : World)
    (given : option string) (name : string) :
  dump_name host config given = Some name ->
  let path := os_path_join (get_database_dump_path config) name in
  let cmd := [get_pg_dump_binary config; "-O"; "-x"; "-F"; "c"]%string in
  ((dumpdb host config given w).1 = Ok tt
   <-> open_fault host path = None
       /\ exists rc out, spawn host cmd (make_env host config) = Exited rc out [])
  /\ (forall rc out,
        open_fault host path = None ->
        spawn host cmd (make_env host config) = Exited rc out [] ->
        files (dumpdb host config given w).2 = <[path := out]> (files w)).
Proof.
  intros Hname path cmd. rewrite (dumpdb_eval host config w given name Hname).
  fold path cmd. split.
  - destruct (open_fault host path) as [oe|].
    + split; [discriminate | intros (H & _); discriminate].
    + destruct (spawn host cmd (make_env host config)) as [oe|rc out err]; simpl.
      * split; [discriminate | intros (_ & rc & out & H); discriminate].
      * destruct err as [|c err]; simpl.
        -- split; eauto.
        -- split; [discriminate | intros (_ & rc' & out' & H); discriminate].
  - intros rc out -> ->. simpl. now rewrite insert_insert_eq.
Qed.

Lemma dumpdb_success_witness :
  files (dumpdb (host_with (Exited 3 (b "PGDMP") [])) sample_config
           (Some "nightly.backup"%string) sample_world).2
  = <["/var/dumps/nightly.backup"%string := b "PGDMP"]> (files sample_world).
Proof.
  apply (proj2 (dumpdb_success (host_with (Exited 3 (b "PGDMP") [])) sample_config
                  sample_world (Some "nightly.backup"%string) "nightly.backup" eq_refl)
           3 (b "PGDMP") eq_refl eq_refl).
Defined.

(** X8: called without a name, [dumpdb] needs [PGDATABASE] for the
    default file name: when neither the configuration nor the process
    environment has it, the call raises [KeyError] before any file is
    opened or program launched. *)
Theorem dumpdb_default_name_needs_database (host : Host) (config : Config) (w : World) :
  make_env host config !! "PGDATABASE"%string = None ->
  dumpdb host config None w = (Err (KeyError "PGDATABASE"), w).
Proof.
  intros H. unfold dumpdb. unfold_monad. now rewrite H.
Qed.

Lemma dumpdb_default_name_needs_database_witness :
  dumpdb (closed_host (OSErr 13 "Permission denied") (Exited 0 [] [])) bare_config None
    sample_world
  = (Err (KeyError "PGDATABASE"), sample_world).
Proof.
  apply (dumpdb_default_name_needs_database
           (closed_host (OSErr 13 "Permission denied") (Exited 0 [] [])) bare_config
           sample_world).
  reflexivity.
Defined.

(** X9: in [dumpdb], [pg_stat_database] and [pg_stat_activity] a program
    that cannot be launched does not give the [M2EEException] the
    handler means to raise: the command is a tuple of several elements,
    formatting it with a single [%s] raises [TypeError] inside the
    handler, and that is what escapes. *)
Theorem launch_failure_escapes_as_type_error
    (host : Host) (config : Config) (w : World)
    (name : option string) (database user : string) (oe : os_error) :
  (forall cmd env, spawn host cmd env = LaunchFailed oe) ->
  (forall path, open_fault host path = None) ->
  make_env host config !! "PGDATABASE"%string = Some database ->
  make_env host config !! "PGUSER"%string = Some user ->
  (dumpdb host config name w).1
  = Err (TypeError "not all arguments converted during string formatting")
  /\ (pg_stat_database host config w).1
     = Err (TypeError "not all arguments converted during string formatting")
  /\ (pg_stat_activity host config w).1
     = Err (TypeError "not all arguments converted during string formatting").
Proof.
  intros Hspawn Hopen Hdb Huser. split; [|split].
  - unfold dumpdb. unfold_monad.
    destruct name as [name|]; [|rewrite Hdb]; now rewrite Hopen, Hspawn.
  - unfold pg_stat_database. unfold_monad. now rewrite Hdb, Hspawn.
  - unfold pg_stat_activity. unfold_monad. now rewrite Hdb, Huser, Hspawn.
Qed.

Lemma launch_failure_escapes_as_type_error_witness :
  (pg_stat_database unlaunchable_host sample_config sample_world).1
  = Err (TypeError "not all arguments converted during string formatting").
Proof.
  destruct (launch_failure_escapes_as_type_error unlaunchable_host sample_config
              sample_world None "appdb" "app" (OSErr 2 "No such file or directory")
              (fun _ _ => eq_refl) (fun _ => eq_refl) eq_refl eq_refl)
    as (_ & H & _).
  exact H.
Defined.

(** ** The text of the error stream in the message *)

Lemma lstrip_all_space (s : list byte) :
  forallb Py_ISSPACE s = true -> lstrip s = [].
Proof.
  induction s as [|c r IH]; simpl; [reflexivity|].
  destruct (Py_ISSPACE c); [exact IH | discriminate].
Qed.

Lemma strip_all_space (s : list byte) :
  forallb Py_ISSPACE s = true -> strip s = [].
Proof.
  intros H. unfold strip, rstrip. now rewrite (lstrip_all_space s H).
Qed.

(** X10: an error stream that holds nothing but whitespace (a lone line
    feed, say) still makes the operation fail, and the message then
    carries the empty text [b'']. *)
Theorem blank_error_stream_fails
    (host : Host) (config : Config) (w : World)
    (name : option string) (dump_name database user : string)
    (rc : Z) (out err : list byte) :
  (forall cmd env, spawn host cmd env = Exited rc out err) ->
  (forall path, open_fault host path = None) ->
  make_env host config !! "PGDATABASE"%string = Some database ->
  make_env host config !! "PGUSER"%string = Some user ->
  err <> [] ->
  forallb Py_ISSPACE err = true ->
  (dumpdb host config name w).1
  = Err (M2EEException "An error occured while creating database dump: b''" None None)
  /\ (restoredb host config dump_name w).1
     = Err (M2EEException "An error occured while doing database restore: b'' " None None)
  /\ (pg_stat_database host config w).1
     = Err (M2EEException "Retrieving pg_stat_database info failed: b''" None None)
  /\ (pg_stat_activity host config w).1
     = Err (M2EEException "Retrieving pg_stat_activity info failed: b''" None None).
Proof.
  intros Hspawn Hopen Hdb Huser Hne Hsp.
  rewrite (dumpdb_error_stream host config w rc out err Hspawn Hne name database Hopen Hdb).
  rewrite (restoredb_error_stream host config w rc out err Hspawn Hne dump_name database Hdb).
  rewrite (pg_stat_database_error_stream host config w rc out err Hspawn Hne database Hdb).
  rewrite (pg_stat_activity_error_stream host config w rc out err Hspawn Hne
             database user Hdb Huser).
  rewrite (strip_all_space err Hsp). repeat split.
Qed.

Lemma blank_error_stream_fails_witness :
  (pg_stat_database (host_with (Exited 0 (b "1|2|3|4|5") [x0a])) sample_config
     sample_world).1
  = Err (M2EEException "Retrieving pg_stat_database info failed: b''" None None).
Proof.
  destruct (blank_error_stream_fails (host_with (Exited 0 (b "1|2|3|4|5") [x0a]))
              sample_config sample_world None "x.backup" "appdb" "app"
              0 (b "1|2|3|4|5") [x0a]
              (fun _ _ => eq_refl) (fun _ => eq_refl) eq_refl eq_refl
              ltac:(discriminate) eq_refl)
    as (_ & _ & H & _).
  exact H.
Defined.

Lemma string_forallb_append (p : ascii -> bool) (s1 s2 : string) :
  string_forallb p (s1 +:+ s2) = string_forallb p s1 && string_forallb p s2.
Proof.
  induction s1 as [|c s1 IH]; [reflexivity|].
  change (p c && string_forallb p (s1 +:+ s2)
          = p c && string_forallb p s1 && string_forallb p s2).
  rewrite IH. now rewrite andb_assoc.
Qed.

Lemma repr_byte_printable (quote c : byte) :
  quote = x22 \/ quote = x27 ->
  string_forallb printable (repr_byte quote c) = true.
Proof.
  intros [->| ->]; destruct c; reflexivity.
Qed.

Lemma concat_printable (pieces : list string) :
  Forall (fun s => string_forallb printable s = true) pieces ->
  string_forallb printable (String.concat EmptyString pieces) = true.
Proof.
  induction 1 as [|s rest Hs _ IH]; [reflexivity|].
  destruct rest as [|s' rest]; [exact Hs|].
  change (String.concat EmptyString (s :: s' :: rest))
    with (s +:+ EmptyString +:+ String.concat EmptyString (s' :: rest)).
  rewrite !string_forallb_append, Hs, IH. reflexivity.
Qed.

(** What [%s] makes of a [bytes] value is printable ASCII throughout. *)
Lemma repr_printable (s : list byte) : string_forallb printable (repr s) = true.
Proof.
  unfold repr.
  set (quote := if contains "'" s && negb (contains x22 s) then x22 else x27).
  assert (Hq : quote = x22 \/ quote = x27).
  { subst quote. destruct (contains "'" s && negb (contains x22 s)); auto. }
  rewrite !string_forallb_append.
  rewrite concat_printable.
  - destruct Hq as [->| ->]; reflexivity.
  - apply Forall_forall. intros piece Hin. apply list_elem_of_In in Hin.
    apply in_map_iff in Hin as (c & <- & _). now apply repr_byte_printable.
Qed.

(** X11: whatever bytes the child wrote to its error stream, the message
    of the exception raised for it is printable ASCII on one line:
    control characters, line feeds included, and bytes above 126 arrive
    escaped. *)
Theorem error_message_is_printable
    (host : Host) (config : Config) (w : World)
    (name : option string) (dump_name database user : string)
    (rc : Z) (out err : list byte) :
  (forall cmd env, spawn host cmd env = Exited rc out err) ->
  (forall path, open_fault host path = None) ->
  make_env host config !! "PGDATABASE"%string = Some database ->
  make_env host config !! "PGUSER"%string = Some user ->
  err <> [] ->
  raises_printable (dumpdb host config name w).1
  /\ raises_printable (restoredb host config dump_name w).1
  /\ raises_printable (pg_stat_database host config w).1
  /\ raises_printable (pg_stat_activity host config w).1.
Proof.
  intros Hspawn Hopen Hdb Huser Hne. unfold raises_printable.
  rewrite (dumpdb_error_stream host config w rc out err Hspawn Hne name database Hopen Hdb).
  rewrite (restoredb_error_stream host config w rc out err Hspawn Hne dump_name database Hdb).
  rewrite (pg_stat_database_error_stream host config w rc out err Hspawn Hne database Hdb).
  rewrite (pg_stat_activity_error_stream host config w rc out err Hspawn Hne
             database user Hdb Huser).
  repeat split; eexists; (split; [reflexivity|]);
    rewrite !string_forallb_append, repr_printable; reflexivity.
Qed.

Lemma error_message_is_printable_witness :
  raises_printable
    (restoredb (host_with (Exited 1 [] [x70; x67; x0a; xff; x09; x27; x22]))
       sample_config "nightly.backup" sample_world).1.
Proof.
  destruct (error_message_is_printable
              (host_with (Exited 1 [] [x70; x67; x0a; xff; x09; x27; x22]))
              sample_config sample_world None "nightly.backup" "appdb" "app"
              1 [] [x70; x67; x0a; xff; x09; x27; x22]
              (fun _ _ => eq_refl) (fun _ => eq_refl) eq_refl eq_refl
              ltac:(discriminate))
    as (_ & H & _).
  exact H.
Defined.

(** ** Parsed sizes and counters *)

(** X12: for every pair of integers that [psql] prints as the one row of
    the size query, [pg_table_index_size] returns exactly that pair,
    table size first, whatever was written to the error stream. *)
Theorem pg_table_index_size_sizes (host : Host) (config : Config) (w : World)
    (table_size index_size : Z) (err : list byte) :
  spawn host [get_psql_binary config; "-At"; "-c"; table_index_size_sql]%string
    (make_env host config)
  = Exited 0 (psql_At_row [Some table_size; Some index_size]) err ->
  (pg_table_index_size host config w).1 = Ok [table_size; index_size].
Proof.
  intros H. rewrite pg_table_index_size_eval, H. simpl.
  change [Some table_size; Some index_size] with (map Some [table_size; index_size]).
  now rewrite ints_psql_At_row.
Qed.

Lemma pg_table_index_size_sizes_witness :
  (pg_table_index_size
     (host_with (Exited 0 (psql_At_row [Some 8192000; Some 1277952]) (b "NOTICE")))
     sample_config sample_world).1 = Ok [8192000; 1277952].
Proof.
  apply (pg_table_index_size_sizes
           (host_with (Exited 0 (psql_At_row [Some 8192000; Some 1277952]) (b "NOTICE")))
           sample_config sample_world 8192000 1277952 (b "NOTICE")).
  reflexivity.
Defined.

Lemma split_length (s : list byte) : length (split "|" s) = S (count_bars s).
Proof.
  induction s as [|c r IH]; [reflexivity|]. simpl.
  destruct (Byte.eqb c "|"); simpl; [now rewrite IH|].
  destruct (split "|" r) as [|f fs]; simpl in *; [discriminate IH | exact IH].
Qed.

Lemma ints_length (fields : list (list byte)) :
  forall zs, ints fields = Some zs -> length zs = length fields.
Proof.
  induction fields as [|f fs IH]; intros zs H; simpl in H.
  - injection H as <-. reflexivity.
  - destruct (int f); [|discriminate]. destruct (ints fs) as [zs'|]; [|discriminate].
    injection H as <-. simpl. now rewrite (IH zs').
Qed.

(** X13: a list returned by [pg_table_index_size] or [pg_stat_database]
    has one integer more than the output has bars; it is never empty,
    and nothing makes it two or five long but the output itself. *)
Theorem parsed_list_length (host : Host) (config : Config) (w : World) (zs : list Z) :
  ((pg_table_index_size host config w).1 = Ok zs ->
   exists out err,
     spawn host [get_psql_binary config; "-At"; "-c"; table_index_size_sql]%string
       (make_env host config) = Exited 0 out err
     /\ length zs = S (count_bars out))
  /\ ((pg_stat_database host config w).1 = Ok zs ->
      exists database rc out,
        make_env host config !! "PGDATABASE"%string = Some database
        /\ spawn host [get_psql_binary config; "-At"; "-c"; stat_database_sql database]%string
             (make_env host config) = Exited rc out []
        /\ length zs = S (count_bars out)).
Proof.
  split.
  - rewrite pg_table_index_size_eval.
    destruct (spawn host _ (make_env host config)) as [oe|rc out err] eqn:Es;
      [discriminate|].
    destruct (rc =? 0) eqn:E; [|discriminate]. apply Z.eqb_eq in E. subst rc.
    destruct (ints (split "|" out)) as [zs'|] eqn:Ei; [|discriminate].
    intros H. injection H as <-. exists out, err. split; [reflexivity|].
    now rewrite (ints_length _ _ Ei), split_length.
  - unfold pg_stat_database. unfold_monad.
    destruct (make_env host config !! "PGDATABASE"%string) as [db|] eqn:Ed;
      [|discriminate].
    destruct (spawn host _ (make_env host config)) as [oe|rc out err] eqn:Es;
      [discriminate|].
    destruct err as [|c err]; [|discriminate]. simpl.
    destruct (ints (split "|" out)) as [zs'|] eqn:Ei; [|discriminate].
    intros H. injection H as <-. exists db, rc, out.
    split; [reflexivity|]. split; [exact Es|].
    now rewrite (ints_length _ _ Ei), split_length.
Qed.

Lemma parsed_list_length_witness :
  exists out err,
    spawn (host_with (Exited 0 (b "7|8|9") [])) ["/usr/bin/psql"; "-At"; "-c"; table_index_size_sql]%string
      (make_env (host_with (Exited 0 (b "7|8|9") [])) sample_config) = Exited 0 out err
    /\ length [7; 8; 9] = S (count_bars out).
Proof.
  apply (proj1 (parsed_list_length (host_with (Exited 0 (b "7|8|9") [])) sample_config
                  sample_world [7; 8; 9])).
  reflexivity.
Defined.

(** X14: the statistics queries need their variables before anything is
    launched: without [PGDATABASE] both [pg_stat_database] and
    [pg_stat_activity] raise [KeyError] for it, and with it but without
    [PGUSER], [pg_stat_activity] raises [KeyError] for [PGUSER]; the
    world is left as it was. *)
Theorem stat_queries_need_variables (host : Host) (config : Config) (w : World) :
  (make_env host config !! "PGDATABASE"%string = None ->
   pg_stat_database host config w = (Err (KeyError "PGDATABASE"), w)
   /\ pg_stat_activity host config w = (Err (KeyError "PGDATABASE"), w))
  /\ (forall database,
        make_env host config !! "PGDATABASE"%string = Some database ->
        make_env host config !! "PGUSER"%string = None ->
        pg_stat_activity host config w = (Err (KeyError "PGUSER"), w)).
Proof.
  split.
  - intros H. unfold pg_stat_database, pg_stat_activity. unfold_monad.
    rewrite H. split; reflexivity.
  - intros db Hdb Huser. unfold pg_stat_activity. unfold_monad.
    now rewrite Hdb, Huser.
Qed.

Lemma stat_queries_need_variables_witness :
  pg_stat_activity (env_host (Exited 0 [] [])) bare_config sample_world
  = (Err (KeyError "PGUSER"), sample_world).
Proof.
  apply (proj2 (stat_queries_need_variables (env_host (Exited 0 [] [])) bare_config
                  sample_world) "fromenv"%string); reflexivity.
Defined.

(** ** Connection states, line by line *)

Lemma state_counts_app (host_lines rest : list (list byte)) :
  forall acc : gmap string Z,
    state_counts (host_lines ++ rest) acc
    = match state_counts host_lines acc with
      | Ok m => state_counts rest m
      | Err e => Err e
      end.
Proof.
  induction host_lines as [|line lines IH]; intros acc; [reflexivity|].
  simpl. destruct (split "|" line) as [|count [|state [|x xs]]]; try reflexivity.
  destruct (decode state); [|reflexivity].
  destruct (int count); [|reflexivity]. apply IH.
Qed.

(** X15: a line that does not split at the bars into exactly two parts
    (a blank line, a line without bar, a state with a bar in it) makes
    [pg_stat_activity] raise [ValueError], however many good lines came
    before it: no partial mapping is returned. *)
Theorem pg_stat_activity_malformed_line
    (host : Host) (config : Config) (w : World) (database user : string)
    (rc : Z) (out : list byte) (rows : list activity_row)
    (bad : list byte) (rest : list (list byte)) :
  make_env host config !! "PGDATABASE"%string = Some database ->
  make_env host config !! "PGUSER"%string = Some user ->
  spawn host [get_psql_binary config; "-At"; "-c"; stat_activity_sql database user]%string
    (make_env host config) = Exited rc out [] ->
  splitlines out = (row_line <$> rows) ++ bad :: rest ->
  Forall row_ok rows ->
  length (split "|" bad) <> 2%nat ->
  (pg_stat_activity host config w).1 = Err ValueError.
Proof.
  intros Hdb Huser Hspawn Hlines Hok Hbad.
  rewrite (pg_stat_activity_eval host config w database user rc out) by assumption.
  rewrite Hlines, state_counts_app, state_counts_rows by assumption.
  simpl. destruct (split "|" bad) as [|count [|state [|x xs]]]; try reflexivity.
  simpl in Hbad. congruence.
Qed.

Lemma pg_stat_activity_malformed_line_witness :
  (pg_stat_activity
     (host_with (Exited 0 (b "19|idle" ++ [x0a; x0a] ++ b "2|active" ++ [x0a]) []))
     sample_config sample_world).1 = Err ValueError.
Proof.
  apply (pg_stat_activity_malformed_line
           (host_with (Exited 0 (b "19|idle" ++ [x0a; x0a] ++ b "2|active" ++ [x0a]) []))
           sample_config sample_world "appdb" "app" 0
           (b "19|idle" ++ [x0a; x0a] ++ b "2|active" ++ [x0a])
           [idle_row] [] [b "2|active"] eq_refl eq_refl eq_refl eq_refl).
  - repeat constructor; try reflexivity; vm_compute; intuition discriminate.
  - vm_compute. discriminate.
Defined.

(** X16: when two lines name the same state, the later line wins: a
    state is mapped to the count of the last line that names it. *)
Theorem pg_stat_activity_last_line_wins
    (host : Host) (config : Config) (w : World) (database user : string)
    (rc : Z) (out : list byte) (before after : list activity_row) (r : activity_row) :
  make_env host config !! "PGDATABASE"%string = Some database ->
  make_env host config !! "PGUSER"%string = Some user ->
  spawn host [get_psql_binary config; "-At"; "-c"; stat_activity_sql database user]%string
    (make_env host config) = Exited rc out [] ->
  splitlines out = row_line <$> (before ++ r :: after) ->
  Forall row_ok (before ++ r :: after) ->
  state_name r ∉ (state_name <$> after) ->
  exists m : gmap string Z,
    (pg_stat_activity host config w).1 = Ok m
    /\ m !! state_name r = Some (count_value r).
Proof.
  intros Hdb Huser Hspawn Hlines Hok Hlast.
  exists (foldl record_row ∅ (before ++ r :: after)). split.
  - rewrite (pg_stat_activity_eval host config w database user rc out) by assumption.
    rewrite Hlines. now apply state_counts_rows.
  - rewrite foldl_app. simpl. rewrite foldl_record_absent by assumption.
    unfold record_row at 1. apply lookup_insert_eq.
Qed.

Lemma pg_stat_activity_last_line_wins_witness :
  exists m : gmap string Z,
    (pg_stat_activity
       (host_with (Exited 0 (b "19|idle" ++ [x0a] ++ b "4|idle" ++ [x0a]) []))
       sample_config sample_world).1 = Ok m
    /\ m !! "idle"%string = Some 4.
Proof.
  apply (pg_stat_activity_last_line_wins
           (host_with (Exited 0 (b "19|idle" ++ [x0a] ++ b "4|idle" ++ [x0a]) []))
           sample_config sample_world "appdb" "app" 0
           (b "19|idle" ++ [x0a] ++ b "4|idle" ++ [x0a])
           [idle_row] [] idle_again_row eq_refl eq_refl eq_refl eq_refl).
  - repeat constructor; try reflexivity; vm_compute; intuition discriminate.
  - intros H. inversion H.
Defined.

Lemma digit_char_plain (d : Z) :
  0 <= d <= 9 ->
  let c := byte_of_ascii (digit_char d) in
  c <> "|"%byte /\ c <> x0a /\ c <> x0d.
Proof.
  intros H. apply digit_range in H.
  repeat (destruct H as [->|H]); try subst d; repeat split; discriminate.
Qed.

Lemma decimal_fuel_plain (fuel : nat) :
  forall (n : Z) (t : string),
    0 <= n ->
    Forall (fun c => c <> "|"%byte /\ c <> x0a /\ c <> x0d) (b t) ->
    Forall (fun c => c <> "|"%byte /\ c <> x0a /\ c <> x0d) (b (decimal_fuel fuel n t)).
Proof.
  induction fuel as [|f IH]; intros n t Hn Ht; [exact Ht|].
  rewrite decimal_fuel_S.
  assert (Hd : Forall (fun c => c <> "|"%byte /\ c <> x0a /\ c <> x0d)
                 (b (String (digit_char (n mod 10)) t))).
  { rewrite b_String. constructor; [|exact Ht].
    apply digit_char_plain. pose proof (Z.mod_pos_bound n 10). lia. }
  destruct (n <? 10) eqn:E; [exact Hd|].
  apply IH; [|exact Hd]. apply Z.div_pos; lia.
Qed.

(** The decimal digits of an integer hold no bar and no line break. *)
Lemma decimal_plain (z : Z) :
  Forall (fun c => c <> "|"%byte /\ c <> x0a /\ c <> x0d) (b (decimal z)).
Proof.
  unfold decimal. destruct (z <? 0) eqn:E.
  - apply Z.ltb_lt in E.
    change (b ("-" +:+ decimal_fuel (S (Z.to_nat (- z))) (- z) EmptyString))
      with (x2d :: b (decimal_fuel (S (Z.to_nat (- z))) (- z) EmptyString)).
    constructor; [repeat split; discriminate|].
    apply decimal_fuel_plain; [lia | constructor].
  - apply Z.ltb_ge in E. apply decimal_fuel_plain; [lia | constructor].
Qed.

Lemma splitlines_line (l rest : list byte) :
  Forall (fun c => c <> x0a /\ c <> x0d) l ->
  splitlines (l ++ x0a :: rest) = l :: splitlines rest.
Proof.
  induction 1 as [|c l (Hn & Hr) _ IH]; [reflexivity|].
  simpl. rewrite (byte_eqb_neq c x0a Hn), (byte_eqb_neq c x0d Hr).
  simpl in IH. now rewrite IH.
Qed.

Lemma rendered_row_line (r : activity_row) :
  rendered_row r -> Forall (fun c => c <> x0a /\ c <> x0d) (row_line r).
Proof.
  intros (Hc & _ & Hs). unfold row_line. rewrite Hc.
  apply Forall_app. split.
  - eapply Forall_impl; [apply decimal_plain|]. simpl. tauto.
  - constructor; [split; discriminate|].
    eapply Forall_impl; [exact Hs|]. simpl. tauto.
Qed.

Lemma splitlines_psql_At_lines (rows : list activity_row) :
  Forall rendered_row rows ->
  splitlines (psql_At_lines rows) = row_line <$> rows.
Proof.
  unfold psql_At_lines. induction 1 as [|r rows Hr _ IH]; [reflexivity|].
  simpl. rewrite <- app_assoc. simpl.
  rewrite splitlines_line by now apply rendered_row_line.
  now rewrite IH.
Qed.

Lemma rendered_row_ok (r : activity_row) : rendered_row r -> row_ok r.
Proof.
  intros (Hc & Hd & Hs). split; [|split; [exact Hd|]].
  - rewrite Hc, <- (app_nil_r (b (decimal (count_value r)))). now apply int_decimal.
  - intros Hin. rewrite Forall_forall in Hs. apply list_elem_of_In in Hin.
    destruct (Hs _ Hin) as (H & _). now apply H.
Qed.

Lemma decode_inj (s1 s2 : list byte) (key : string) :
  decode s1 = Some key -> decode s2 = Some key -> s1 = s2.
Proof.
  unfold decode. destruct (utf8_valid s1); [|discriminate].
  destruct (utf8_valid s2); [|discriminate].
  intros H1 H2. injection H1 as <-. injection H2 as H2.
  rewrite <- (list_byte_of_string_of_list_byte s1),
          <- (list_byte_of_string_of_list_byte s2).
  now rewrite H2.
Qed.

Lemma rendered_names_distinct (rows : list activity_row) :
  Forall rendered_row rows ->
  NoDup (state_text <$> rows) -> NoDup (state_name <$> rows).
Proof.
  induction 1 as [|r rows Hr Hrows IH]; intros Hnd; [constructor|].
  change (state_text <$> r :: rows) with (state_text r :: (state_text <$> rows)) in Hnd.
  change (state_name <$> r :: rows) with (state_name r :: (state_name <$> rows)).
  apply NoDup_cons in Hnd as (Hfresh & Hnd). apply NoDup_cons. split; [|auto].
  intros Hin. apply Hfresh. apply list_elem_of_fmap in Hin as (r' & Heq & Hin').
  apply list_elem_of_fmap. exists r'. split; [|exact Hin'].
  rewrite List.Forall_forall in Hrows. apply list_elem_of_In in Hin'.
  destruct Hr as (_ & Hd & _). destruct (Hrows r' Hin') as (_ & Hd' & _).
  rewrite Heq in Hd. exact (decode_inj _ _ _ Hd Hd').
Qed.

(** X17: whatever rows the connection-state query returns, printed by
    [psql -At] one per line with distinct states, [pg_stat_activity]
    gives every state its count back and has no entry for any other
    state: printing and parsing are inverse to each other. *)
Theorem pg_stat_activity_reads_psql_output
    (host : Host) (config : Config) (w : World) (database user : string)
    (rc : Z) (rows : list activity_row) :
  make_env host config !! "PGDATABASE"%string = Some database ->
  make_env host config !! "PGUSER"%string = Some user ->
  spawn host [get_psql_binary config; "-At"; "-c"; stat_activity_sql database user]%string
    (make_env host config) = Exited rc (psql_At_lines rows) [] ->
  Forall rendered_row rows ->
  NoDup (state_text <$> rows) ->
  exists m : gmap string Z,
    (pg_stat_activity host config w).1 = Ok m
    /\ (forall r, r ∈ rows -> m !! state_name r = Some (count_value r))
    /\ (forall key, key ∉ (state_name <$> rows) -> m !! key = None).
Proof.
  intros Hdb Huser Hspawn Hrows Hnd.
  exists (foldl record_row ∅ rows). split; [|split].
  - rewrite (pg_stat_activity_eval host config w database user rc (psql_At_lines rows))
      by assumption.
    rewrite splitlines_psql_At_lines by assumption.
    apply state_counts_rows. eapply Forall_impl; [exact Hrows|].
    intros r. apply rendered_row_ok.
  - intros r Hin. apply foldl_record_distinct; [|exact Hin].
    now apply rendered_names_distinct.
  - intros key Hnot. now rewrite foldl_record_absent.
Qed.

Lemma pg_stat_activity_reads_psql_output_witness :
  exists m : gmap string Z,
    (pg_stat_activity (host_with (Exited 0 (psql_At_lines [idle_row; waiting_row]) []))
       sample_config sample_world).1 = Ok m
    /\ m !! "idle in transaction"%string = Some 1.
Proof.
  destruct (pg_stat_activity_reads_psql_output
              (host_with (Exited 0 (psql_At_lines [idle_row; waiting_row]) []))
              sample_config sample_world "appdb" "app" 0 [idle_row; waiting_row]
              eq_refl eq_refl eq_refl)
    as (m & Hm & Hrows & _).
  - repeat constructor; try reflexivity; try discriminate.
  - apply NoDup_cons. split; [|apply NoDup_singleton].
    intros H. apply list_elem_of_singleton in H. discriminate H.
  - exists m. split; [exact Hm|]. apply (Hrows waiting_row). right. now left.
Defined.

(** ** Where the dump goes *)

Lemma prefix_append (s t : string) : String.prefix s (s +:+ t) = true.
Proof.
  induction s as [|c s IH]; [now destruct t|].
  change (String.prefix (String c s) (String c (s +:+ t)) = true).
  simpl. destruct (ascii_dec c c); [exact IH | contradiction].
Qed.

(** X18: a relative name keeps the dump inside the dump directory, in
    the sense that the path opened begins with the directory; a name
    that begins with a slash replaces the directory altogether, and the
    dump is written to that absolute path. *)
Theorem dumpdb_named_path (host : Host) (config : Config) (w : World) (name : string) :
  exists path,
    opened_paths (trace (dumpdb host config (Some name) w).2)
    = opened_paths (trace w) ++ [path]
    /\ (startswith_sep name = true -> path = name)
    /\ (startswith_sep name = false ->
        String.prefix (get_database_dump_path config) path = true).
Proof.
  exists (os_path_join (get_database_dump_path config) name).
  split; [now apply dumpdb_opened_path|].
  unfold os_path_join. split; intros ->; [reflexivity|].
  destruct (String.eqb (get_database_dump_path config) EmptyString
            || endswith_sep (get_database_dump_path config));
    apply prefix_append.
Qed.

Lemma dumpdb_named_path_witness :
  opened_paths (trace (dumpdb (host_with (Exited 0 [] [])) sample_config
                         (Some "/etc/cron.d/job"%string) sample_world).2)
  = ["/etc/cron.d/job"%string].
Proof.
  destruct (dumpdb_named_path (host_with (Exited 0 [] [])) sample_config sample_world
              "/etc/cron.d/job") as (path & Hpath & Habs & _).
  rewrite Hpath, (Habs eq_refl). reflexivity.
Defined.

(** X19: the database in the default dump name is the configuration's
    [PGDATABASE] whatever the process environment says, and the process
    environment's only when the configuration has none: the subprocess
    operations read the merged environment, unlike
    [open_pg_connection]. *)
Theorem dumpdb_default_name_database (host : Host) (config : Config) (w : World)
    (database : string) :
  get_pg_environment config !! "PGDATABASE"%string = Some database
  \/ (get_pg_environment config !! "PGDATABASE"%string = None
      /\ os_environ host !! "PGDATABASE"%string = Some database) ->
  opened_paths (trace (dumpdb host config None w).2)
  = opened_paths (trace w)
    ++ [os_path_join (get_database_dump_path config)
          (database +:+ "_" +:+ strftime (localtime host) +:+ ".backup")].
Proof.
  intros H. apply dumpdb_opened_path. unfold dump_name, make_env.
  destruct H as [H|(Hnone & H)].
  - now rewrite (lookup_union_Some_l _ _ _ _ H).
  - now rewrite lookup_union_r, H.
Qed.

Lemma dumpdb_default_name_database_witness :
  opened_paths (trace (dumpdb (env_host (Exited 0 [] [])) bare_config None sample_world).2)
  = ["/var/dumps/fromenv_20240309_070500.backup"%string]
  /\ opened_paths (trace (dumpdb (env_host (Exited 0 [] [])) sample_config None
                            sample_world).2)
     = ["/var/dumps/appdb_20240309_070500.backup"%string].
Proof.
  split.
  - apply (dumpdb_default_name_database (env_host (Exited 0 [] [])) bare_config
             sample_world "fromenv"). right. split; reflexivity.
  - apply (dumpdb_default_name_database (env_host (Exited 0 [] [])) sample_config
             sample_world "appdb"). left. reflexivity.
Defined.

(** ** Statement texts *)

Example sql_text_drop_table :
  sql_text (DropTable "public" "orders")
  = "DROP TABLE " +:+ dq +:+ "public" +:+ dq +:+ "." +:+ dq +:+ "orders" +:+ dq
    +:+ " CASCADE;".
Proof. reflexivity. Qed.

Example quote_ident_doubles_quotes :
  quote_ident ("a" +:+ dq +:+ "b") = dq +:+ "a" +:+ dq +:+ dq +:+ "b" +:+ dq.
Proof. reflexivity. Qed.
